(** * QKart: user records, saved addresses, cart total and checkout

    A shallow embedding of the QKart backend's user controller
    (getUser, setAddress, getAddresses, addAddress, deleteAddress), of the
    Mongoose user schema with its statics and methods (isEmailTaken,
    hasSetNonDefaultAddress) and of the frontend's cart total
    (Cart.calculateTotal), followed by the properties of the specification
    that these functions decide.

    Conventions of the model
    - a JavaScript string that the program trims, measures or lower-cases
      (names, emails, passwords, addresses, the lines of the import file) is
      the list of its UTF-16 code units, [length] is its [.length], [trim]
      strips the white space of ECMAScript, and [toLowerCase] is a
      parameter with the properties used; identifiers, query flags and
      messages, which are only compared or shown, are [string]s;
    - a wallet balance, a cost or a quantity is a [Z]: the handlers and the
      checkout are stated on whole numbers; the cart total is also given on
      doubles, and its arithmetic laws are stated where doubles are exact;
    - an ObjectId is the string that [toString()] renders it as;
    - the users collection is a finite map from [_id] to the stored
      document; a document loaded by a controller is a local value and only
      [save] writes it back;
    - an [async] function that may throw is a computation in the monad [M]
      (store passing plus a thrown error). *)

From Stdlib Require Import ZArith String Ascii List Lia Permutation Floats.
From stdpp Require Import base option list gmap strings.

Local Open Scope string_scope.
Local Open Scope Z_scope.
Local Open Scope list_scope.

(** ** JavaScript strings *)

Abbreviation ObjectId := string.

Definition toString (o : ObjectId) : string := o.

(** A JavaScript string that the program trims, measures or lower-cases is
    the list of its UTF-16 code units; [length] is its [.length]. *)
Abbreviation jsstring := (list N).

(** The JavaScript string of a literal, character by character. *)
Fixpoint js (s : string) : jsstring :=
  match s with
  | EmptyString => []
  | String c s' => N_of_ascii c :: js s'
  end.

(** The white space and line terminators of ECMAScript, which
    [String.prototype.trim] strips. *)
Definition is_space (c : N) : bool :=
  bool_decide
    (c ∈ [9; 10; 11; 12; 13; 32; 160; 5760; 8232; 8233; 8239; 8287; 12288;
          65279]%N
     \/ (8192 <= c <= 8202)%N).

(** [String.prototype.trimStart] *)
Fixpoint trimStart (s : jsstring) : jsstring :=
  match s with
  | c :: s' => if is_space c then trimStart s' else s
  | [] => []
  end.

(** [String.prototype.trimEnd] *)
Fixpoint trimEnd (s : jsstring) : jsstring :=
  match s with
  | [] => []
  | c :: s' =>
      match trimEnd s' with
      | [] => if is_space c then [] else [c]
      | t => c :: t
      end
  end.

(** [String.prototype.trim], the setter behind the schema option [trim: true]. *)
Definition trim (s : jsstring) : jsstring := trimEnd (trimStart s).

(** [String.prototype.toLowerCase], the setter behind [lowercase: true]: the
    Unicode case mapping is taken as given, with three of its properties:
    the empty string stays empty, lower-casing twice is lower-casing once,
    and lower-casing a trimmed string leaves it trimmed. *)
Record Lowercase := mkLowercase {
  lower : jsstring -> jsstring;
  lower_nil : lower [] = [];
  lower_idemp : forall s, lower (lower s) = lower s;
  lower_trimmed : forall s, trim (lower (trim s)) = lower (trim s)
}.

(** [\d] *)
Definition is_digit (c : N) : bool := ((48 <=? c) && (c <=? 57))%N.

(** [[a-zA-Z]] *)
Definition is_letter (c : N) : bool :=
  (((65 <=? c) && (c <=? 90)) || ((97 <=? c) && (c <=? 122)))%N.

(** [value.match(re)] for a one-character class: some code unit is in it. *)
Fixpoint match_class (p : N -> bool) (s : jsstring) : bool :=
  match s with
  | [] => false
  | c :: s' => p c || match_class p s'
  end.

(** ** Documents of the users collection (user.model.js) *)

Record Address := mkAddress {
  a_id : ObjectId;
  a_address : jsstring
}.

Record User := mkUser {
  u_id : ObjectId;
  u_name : jsstring;
  u_email : jsstring;
  u_password : jsstring;
  u_walletMoney : Z;
  u_address : option jsstring;
  u_addresses : option (list Address)
}.

Definition set_address (u : User) (a : option jsstring) : User :=
  mkUser (u_id u) (u_name u) (u_email u) (u_password u) (u_walletMoney u) a
    (u_addresses u).

Definition set_addresses (u : User) (l : list Address) : User :=
  mkUser (u_id u) (u_name u) (u_email u) (u_password u) (u_walletMoney u)
    (u_address u) (Some l).

Definition set_walletMoney (u : User) (w : Z) : User :=
  mkUser (u_id u) (u_name u) (u_email u) (u_password u) w (u_address u)
    (u_addresses u).

(** [config.default_address]: the configuration module is not among the
    sources; the value is the one the controller's documentation shows for a
    fresh user. *)
Definition default_address : jsstring := js "ADDRESS_NOT_SET".

(** [user.addresses || []] *)
Definition addresses_or_empty (u : User) : list Address :=
  match u_addresses u with
  | Some l => l
  | None => []
  end.

(** The [required] validator of a String path: present and not empty. *)
Definition required (s : jsstring) : bool :=
  if decide (s = []) then false else true.

(** ** http-status and thrown errors *)

Module httpStatus.
Definition BAD_REQUEST : Z := 400.
Definition FORBIDDEN : Z := 403.
Definition NOT_FOUND : Z := 404.
End httpStatus.

Inductive Thrown :=
| ApiError (statusCode : Z) (message : string)
| MongooseValidationError
| DuplicateKey (path : string).

Inductive Result (A : Type) :=
| Ok (a : A)
| Throw (e : Thrown).
Arguments Ok {A} a.
Arguments Throw {A} e.

(** What [res.send] is given. *)
Inductive Body :=
| SendUser (u : User)
| SendAddress (address : option jsstring)
| SendAddresses (addresses : list Address)
| SendSuccess.

Record Request := mkRequest {
  req_params_userId : ObjectId;
  req_params_addressId : string;
  req_query_q : option string;
  req_body_address : option jsstring;
  req_user : User
}.

(** ** The store-passing monad of the handlers *)

Definition M (A : Type) : Type := gmap string User -> Result A * gmap string User.

Global Instance M_ret : MRet M := fun A a db => (Ok a, db).

Global Instance M_bind : MBind M := fun A B f m db =>
  match m db with
  | (Ok a, db') => f a db'
  | (Throw e, db') => (Throw e, db')
  end.

Definition throw {A} (e : Thrown) : M A := fun db => (Throw e, db).

(** ** The cart (frontend/src/components/Cart.js) *)

Record Product := mkProduct {
  p_id : string;
  p_name : string;
  p_category : string;
  cost : Z;
  rating : Z;
  image : string
}.

Record CartItem := mkCartItem {
  productId : string;
  quantity : Z;
  product : Product
}.

(** [Array.prototype.reduce] with an initial value. *)
Definition reduce {A B} (f : B -> A -> B) (init : B) (l : list A) : B :=
  fold_left f l init.

(** [calculateTotal], over [this.state.items]. *)
Definition calculateTotal (items : list CartItem) : Z :=
  if (length items =? 0)%nat then 0
  else reduce (fun total item => total + cost (product item) * quantity item) 0 items.



(** The fields a new user is created from. *)
Record UserBody := mkUserBody {
  b_name : option jsstring;
  b_email : option jsstring;
  b_password : option jsstring;
  b_walletMoney : option Z;
  b_address : option jsstring
}.

(** ** The cart component's calls to the backend (Cart.js) *)

(** The fields of a JSON reply that the component reads: [message] and
    [cartItems]. The reply [{}] has neither. *)
Record Response := mkResponse {
  r_message : option string;
  r_cartItems : option (list CartItem)
}.

Definition empty_response : Response := mkResponse None None.

(** What [fetch] followed by [.json()] comes to: [fetch] rejects, or it
    resolves with a status and a body that parses as JSON or does not. *)
Inductive Fetch :=
| NetworkError
| Reply (status : Z) (json : option Response).

(** The values [statusCode] takes, and the string it is compared with. *)
Inductive Js :=
| JsUndef
| JsNum (n : Z)
| JsStr (s : string).

(** [a === b] *)
Definition strict_eq (a b : Js) : bool :=
  match a, b with
  | JsUndef, JsUndef => true
  | JsNum m, JsNum n => m =? n
  | JsStr s, JsStr t => if decide (s = t) then true else false
  | _, _ => false
  end.

(** The truthiness of a string: it is not the empty string. *)
Definition truthy_message (m : string) : bool :=
  if decide (m = "") then false else true.

Definition generic_error : string :=
  "Could not update cart. Check that the backend is running, reachable and returns valid JSON.".

(** [validateResponse(errored, response)]: the verdict, and the messages it
    shows with [message.error]. A [message] is truthy when it is there and
    not the empty string. *)
Definition validateResponse (errored : bool) (response : Response)
  : bool * list string :=
  if errored then (false, [generic_error])
  else
    match r_message response with
    | Some m => if truthy_message m then (false, [m]) else (true, [])
    | None => (true, [])
    end.

(** [response = await (await fetch(...)).json()] inside [try], with
    [errored = true] in the [catch]. *)
Definition fetch_json (f : Fetch) : bool * Response :=
  match f with
  | NetworkError => (true, empty_response)
  | Reply _ None => (true, empty_response)
  | Reply _ (Some r) => (false, r)
  end.

(** [getCart]: the reply when it passes validation, else nothing. *)
Definition getCart (f : Fetch) : option Response * list string :=
  let '(errored, response) := fetch_json f in
  let '(ok, shown) := validateResponse errored response in
  (if ok then Some response else None, shown).

(** An element of [state.items]: the cart line with its [product] replaced
    by what [props.products.find] returned, which is nothing when no
    product of the catalogue has the [_id]. *)
Record StateItem := mkStateItem {
  s_productId : string;
  s_quantity : Z;
  s_product : option Product
}.

(** [this.props.products.find((product) => product._id === id)] *)
Definition find_product (products : list Product) (id : string) : option Product :=
  snd <$> list_find (fun p => p_id p = id) products.

(** [refreshCart]: the new [state.items] and the messages shown; the items
    stay as they are unless the cart came back with [cartItems], each line
    of which carries its product. *)
Definition refreshCart (products : list Product) (f : Fetch)
  (items : list StateItem) : list StateItem * list string :=
  let '(cart, shown) := getCart f in
  match cart with
  | Some cart =>
      match r_cartItems cart with
      | Some cartItems =>
          ((fun item =>
              mkStateItem (productId item) (quantity item)
                (find_product products (p_id (product item)))) <$> cartItems,
           shown)
      | None => (items, shown)
      end
  | None => (items, shown)
  end.

(** [postToCart]: the POST reply is always parsed; on a good verdict the
    cart is refreshed with a GET. *)
Definition postToCart (products : list Product) (post get : Fetch)
  (items : list StateItem) : list StateItem * list string :=
  let '(errored, response) := fetch_json post in
  let '(ok, shown) := validateResponse errored response in
  if ok then
    let '(items', shown') := refreshCart products get items in
    (items', (shown ++ shown')%list)
  else (items, shown).

(** [putToCart]: the PUT reply is parsed unless its status is 204; the cart
    is refreshed when [statusCode === "204"] or on a good verdict. *)
Definition putToCart (products : list Product) (put get : Fetch)
  (items : list StateItem) : list StateItem * list string :=
  let '(errored, response, statusCode) :=
    match put with
    | NetworkError => (true, empty_response, JsUndef)
    | Reply status json =>
        if negb (strict_eq (JsNum status) (JsNum 204))
        then
          match json with
          | Some r => (false, r, JsNum status)
          | None => (true, empty_response, JsNum status)
          end
        else (false, empty_response, JsNum status)
    end in
  if strict_eq statusCode (JsStr "204")
  then refreshCart products get items
  else
    let '(ok, shown) := validateResponse errored response in
    if ok then
      let '(items', shown') := refreshCart products get items in
      (items', (shown ++ shown')%list)
    else (items, shown).

(** The cart lines of [state.items], when every product was found. *)
Definition state_cart (items : list StateItem) : option (list CartItem) :=
  mapM (fun i => mkCartItem (s_productId i) (s_quantity i) <$> s_product i) items.

(** [calculateTotal] over [state.items]: reading [item.product.cost] of an
    item whose product was not found throws, which is [None] here. *)
Definition calculateTotal_state (items : list StateItem) : option Z :=
  calculateTotal <$> state_cart items.

(** ** The import script (src/scripts/importData.js) *)

(** [text.split('\n')], the line feed being the code unit 10 *)
Fixpoint split_newline (s : jsstring) : list jsstring :=
  match s with
  | [] => [[]]
  | c :: s' =>
      if decide (c = 10%N) then [] :: split_newline s'
      else
        match split_newline s' with
        | h :: t => (c :: h) :: t
        | [] => [[c]]
        end
  end.

(** The line feed, as a one-character string. *)
Definition newline : jsstring := [10%N].

(** Whether a string holds a line feed. *)
Fixpoint has_newline (s : jsstring) : bool :=
  match s with
  | [] => false
  | c :: s' => if decide (c = 10%N) then true else has_newline s'
  end.

(** [line => line.trim()] as a filter: the line is kept when what is left
    after trimming is not the empty string. *)
Definition not_blank (line : jsstring) : bool := required (trim line).

Unset Elimination Schemes.

(** A parsed JSON value; an object is the list of its properties. *)
Inductive Json :=
| JNull
| JBool (b : bool)
| JNum (n : Z)
| JStr (s : string)
| JArr (elems : list Json)
| JObj (fields : list (string * Json)).

Set Elimination Schemes.

(** [v.k] for the property names the script reads, on a value that may be
    [undefined] (the outer [None] of the argument): reading a property of
    [undefined] or [null] throws (the result [None]); an object gives the
    property or [undefined]; any other value gives [undefined]. *)
Definition prop (v : option Json) (k : string) : option (option Json) :=
  match v with
  | None => None
  | Some JNull => None
  | Some (JObj fields) => Some ((fun f => f.2.2) <$> list_find (fun f => f.1 = k) fields)
  | Some _ => Some None
  end.

(** The object the script builds from one parsed line. *)
Record ProductDoc := mkProductDoc {
  d_id : option Json;
  d_name : option Json;
  d_category : option Json;
  d_cost : option Json;
  d_rating : option Json;
  d_image : option Json
}.

(** The body of the [map] callback after [JSON.parse]: [None] when reading
    [data._id.$oid] throws. *)
Definition to_product (data : Json) : option ProductDoc :=
  _id ← prop (Some data) "_id";
  oid ← prop _id "$oid";
  name ← prop (Some data) "name";
  category ← prop (Some data) "category";
  cost ← prop (Some data) "cost";
  rating ← prop (Some data) "rating";
  image ← prop (Some data) "image";
  Some (mkProductDoc oid name category cost rating image).

Section ImportScript.

(** [JSON.parse]: [None] when it throws a SyntaxError. *)
Variable JSON_parse : jsstring -> option Json.

(** The products collection holds documents of the Product model, which is
    not among the sources; [insertMany] answers whether it succeeded and
    with the collection it leaves. *)
Variable Doc : Type.
Variable insertMany : list ProductDoc -> list Doc -> bool * list Doc.

(** [productsData]: the non-blank lines of the file, each parsed and
    converted; [None] when some line throws. *)
Definition productsData (text : jsstring) : option (list ProductDoc) :=
  mapM (fun line => data ← JSON_parse line; to_product data)
    (filter (fun line => not_blank line = true) (split_newline text)).

(** [importData]: the exit code (1 from [process.exit(1)] in the [catch],
    0 when the script runs to its end) and the products collection it
    leaves. [connected] tells whether [mongoose.connect] succeeded and
    [file] is what [readFileSync] returns, nothing when it throws;
    [deleteMany] and the closing of the connection are taken to succeed. *)
Definition importData (connected : bool) (file : option jsstring)
  (products : list Doc) : Z * list Doc :=
  if negb connected then (1, products)
  else
    let products := [] in
    match file with
    | None => (1, products)
    | Some text =>
        match productsData text with
        | None => (1, products)
        | Some docs =>
            let '(ok, products) := insertMany docs products in
            (if ok then 0 else 1, products)
        end
    end.

End ImportScript.

(** ** Sample data

    The user of the controller's documentation and of the README, two cart
    lines, and a stand-in for [validator.isEmail] on these samples. *)

Definition contains_at (s : jsstring) : bool :=
  match_class (fun c => if decide (c = 64%N) then true else false) s.

(** A stand-in for [toLowerCase] on these samples: it lowers the letters A
    to Z and leaves every other code unit. *)
Definition lower_unit (c : N) : N :=
  if ((65 <=? c) && (c <=? 90))%N then (c + 32)%N else c.

Definition lower_ascii (s : jsstring) : jsstring := lower_unit <$> s.

Definition crio_user : User :=
  mkUser "6010008e6c3477697e8eaba3" (js "crio-users")
    (js "crio-user@gmail.com") (js "criouser123") 500
    (Some (js "ADDRESS_NOT_SET")) (Some []).

Definition home : Address :=
  mkAddress "60100a1b6c3477697e8eabb0" (js "221B Baker Street, London NW1").

Definition office : Address :=
  mkAddress "60100a1b6c3477697e8eabb1" (js "10 Downing Street, London SW1A").

Definition crio_user_with_addresses : User :=
  set_addresses crio_user [home; office].

Definition crio_request : Request :=
  mkRequest "6010008e6c3477697e8eaba3" "60100a1b6c3477697e8eabb0" None
    (Some (js "742 Evergreen Terrace, Springfield")) crio_user.

Definition crio_body : UserBody :=
  mkUserBody (Some (js "crio-users")) (Some (js "Crio-User@Gmail.com"))
    (Some (js "criouser123")) None None.

Definition tshirt : Product :=
  mkProduct "KCRwjF7lN97HnEaY" "Tan Leatherette Weekender Duffle" "Fashion"
    150 4 "duffle.png".

Definition bottle : Product :=
  mkProduct "BW0jAAeDJmlZCF8i" "Stainless Steel Bottle" "Home" 50 5
    "bottle.png".

Definition sample_cart : list CartItem :=
  [mkCartItem "KCRwjF7lN97HnEaY" 1 tshirt; mkCartItem "BW0jAAeDJmlZCF8i" 3 bottle].

Definition crio_db : gmap string User := {[u_id crio_user := crio_user]}.

Definition crio_db_with_addresses : gmap string User :=
  {[u_id crio_user := crio_user_with_addresses]}.

(** A request whose address is nineteen spaces and one letter. *)
Definition padded_request : Request :=
  mkRequest "6010008e6c3477697e8eaba3" "" None
    (Some (js "                   a")) crio_user.

(** A caller record with the sample user's [_id] and another email. *)
Definition renamed_caller : User :=
  mkUser "6010008e6c3477697e8eaba3" (js "crio-users")
    (js "someone-else@gmail.com") (js "criouser123") 500
    (Some (js "ADDRESS_NOT_SET")) (Some []).

Definition renamed_request : Request :=
  mkRequest "6010008e6c3477697e8eaba3" "" None None renamed_caller.

(** A creation that asks for a negative balance. *)
Definition overdrawn_body : UserBody :=
  mkUserBody (Some (js "crio-users")) (Some (js "crio-user@gmail.com"))
    (Some (js "criouser123")) (Some (-1)) None.

(** A request for a user id that is not stored. *)
Definition unknown_request : Request :=
  mkRequest "000000000000000000000000" "" None
    (Some (js "742 Evergreen Terrace, Springfield")) crio_user.

(** A request whose address is twenty spaces. *)
Definition blank_request : Request :=
  mkRequest "6010008e6c3477697e8eaba3" "" None
    (Some (js "                    ")) crio_user.

(** The request that deletes the address added under the new identifier. *)
Definition delete_new_request : Request :=
  mkRequest "6010008e6c3477697e8eaba3" "60100a1b6c3477697e8eabb2" None None
    crio_user.

(** The request that reads the legacy address. *)
Definition address_query_request : Request :=
  mkRequest "6010008e6c3477697e8eaba3" "" (Some "address") None crio_user.

Definition crio_user_at_home : User := set_addresses crio_user [home].

Definition crio_db_at_home : gmap string User :=
  {[u_id crio_user := crio_user_at_home]}.

(** A second sign-up with the sample user's email in another case. *)
Definition shouting_body : UserBody :=
  mkUserBody (Some (js "someone")) (Some (js " CRIO-USER@GMAIL.COM "))
    (Some (js "password1")) None None.

(** The catalogue, and a cart reply whose embedded product carries an old
    price. *)
Definition catalogue : list Product := [tshirt; bottle].

Definition old_tshirt : Product :=
  mkProduct "KCRwjF7lN97HnEaY" "Tan Leatherette Weekender Duffle" "Fashion"
    100 4 "duffle.png".

Definition cart_reply : Response :=
  mkResponse None
    (Some [mkCartItem "KCRwjF7lN97HnEaY" 2 old_tshirt;
           mkCartItem "BW0jAAeDJmlZCF8i" 3 bottle]).

(** One line of an export file, the value it parses to, and a parser that
    knows this line only. *)
Definition bottle_line : jsstring := js "{bottle}".

Definition bottle_json : Json :=
  JObj [("_id", JObj [("$oid", JStr "BW0jAAeDJmlZCF8i")]);
        ("name", JStr "Stainless Steel Bottle");
        ("cost", JNum 50)].

Definition parse_bottle (line : jsstring) : option Json :=
  if decide (line = bottle_line) then Some bottle_json else None.

(** An insert that stores the documents after those already there. *)
Definition append_docs (docs : list ProductDoc) (products : list ProductDoc)
  : bool * list ProductDoc :=
  (true, (products ++ docs)%list).

(** A sign-up whose password is five characters between spaces. *)
Definition padded_password_body : UserBody :=
  mkUserBody (Some (js "someone")) (Some (js "someone@gmail.com"))
    (Some (js "  abc12  ")) None None.

(** A request whose address is twenty no-break spaces. *)
Definition nbsp_request : Request :=
  mkRequest "6010008e6c3477697e8eaba3" "" None
    (Some (replicate 20 160%N)) crio_user.

(** ** Schema validation, the user service and the user controller *)

Section Users.

(** [validator.isEmail], from the external library [validator]. *)
Variable isEmail : jsstring -> bool.

(** [String.prototype.toLowerCase] *)
Variable L : Lowercase.

Definition toLowerCase (s : jsstring) : jsstring := lower L s.

(** The validators of [userSchema], run by [save] and [create]:
    name, email, password and each saved address are [required]; the email
    passes [isEmail]; the password has [minlength] 8, a digit and a
    letter. [walletMoney] is required too, and a [User] always has one. *)
Definition validate (u : User) : bool :=
  required (u_name u)
  && (required (u_email u) && isEmail (u_email u))
  && (required (u_password u)
      && (8 <=? length (u_password u))%nat
      && match_class is_digit (u_password u)
      && match_class is_letter (u_password u))
  && forallb (fun a => required (a_address a)) (addresses_or_empty u).

(** [document.save()]: validate, then write the document under its [_id]. *)
Definition save (u : User) : M unit := fun db =>
  if validate u then (Ok tt, <[u_id u := u]> db)
  else (Throw MongooseValidationError, db).

(** Modelled from the spec: [userService.getUserById] (the service module is
    not among the sources) resolves a user id to the stored record, or to
    nothing when the user does not exist. *)
Definition userService_getUserById (id : ObjectId) : M (option User) :=
  fun db => (Ok (db !! id), db).

(** Modelled from the spec: [userService.getUserAddressById] resolves the
    same record for the address projection; the projection keeps the email
    and the legacy address, the two fields the controller reads. *)
Definition userService_getUserAddressById (id : ObjectId) : M (option User) :=
  fun db => (Ok (db !! id), db).

(** Modelled from the spec: [userService.setAddress] overwrites the single
    legacy address field, persists and returns the new value. When the new
    value is missing, [save] unsets the field, and a record read from the
    store carries the schema default in its place; the value returned is
    the missing one. *)
Definition userService_setAddress (user : User) (newAddress : option jsstring)
  : M (option jsstring) :=
  _ ← save (set_address user (Some (default default_address newAddress)));
  mret newAddress.

(** [getUser]: the whole record, or its legacy address when [q] is
    [address]; 404 when the user is absent, 403 when the emails differ. *)
Definition getUser (req : Request) : M Body :=
  data ← (if decide (req_query_q req = Some "address")
          then userService_getUserAddressById (req_params_userId req)
          else userService_getUserById (req_params_userId req));
  match data with
  | None => throw (ApiError httpStatus.NOT_FOUND "User not found")
  | Some data =>
      if decide (u_email data <> u_email (req_user req))
      then throw (ApiError httpStatus.FORBIDDEN
                    "User not authorized to access this resource")
      else if decide (req_query_q req = Some "address")
      then mret (SendAddress (u_address data))
      else mret (SendUser data)
  end.

(** [setAddress]: the same checks, then the service call. *)
Definition setAddress (req : Request) : M Body :=
  user ← userService_getUserById (req_params_userId req);
  match user with
  | None => throw (ApiError httpStatus.NOT_FOUND "User not found")
  | Some user =>
      if decide (u_email user <> u_email (req_user req))
      then throw (ApiError httpStatus.FORBIDDEN
                    "User not authorized to access this resource")
      else
        address ← userService_setAddress user (req_body_address req);
        mret (SendAddress address)
  end.

(** [getAddresses]: 404 when the user is absent, 403 when the [_id]
    strings differ, else [user.addresses || []]. *)
Definition getAddresses (req : Request) : M Body :=
  user ← userService_getUserById (req_params_userId req);
  match user with
  | None => throw (ApiError httpStatus.NOT_FOUND "User not found")
  | Some user =>
      if decide (toString (u_id user) <> toString (u_id (req_user req)))
      then throw (ApiError httpStatus.FORBIDDEN "User not found")
      else mret (SendAddresses (addresses_or_empty user))
  end.

(** [!req.body.address || req.body.address.length < 20] *)
Definition address_too_short (a : option jsstring) : bool :=
  match a with
  | None => true
  | Some s => negb (required s) || (length s <? 20)%nat
  end.

(** [user.addresses.push({ address })]: the document array casts the new
    element to a subdocument, which runs the [trim] setter and gives it the
    ObjectId [new_id] that the driver generates. *)
Definition push_address (l : list Address) (new_id : ObjectId) (s : jsstring)
  : list Address :=
  l ++ [mkAddress new_id (trim s)].

(** [addAddress]: the same checks, the length check on the text as sent,
    then push and save. *)
Definition addAddress (new_id : ObjectId) (req : Request) : M Body :=
  user ← userService_getUserById (req_params_userId req);
  match user with
  | None => throw (ApiError httpStatus.NOT_FOUND "User not found")
  | Some user =>
      if decide (toString (u_id user) <> toString (u_id (req_user req)))
      then throw (ApiError httpStatus.FORBIDDEN "User not found")
      else if address_too_short (req_body_address req)
      then throw (ApiError httpStatus.BAD_REQUEST
                    "Address should be greater than 20 characters")
      else
        let user := set_addresses user (addresses_or_empty user) in
        (* the guard above lets only a present address through *)
        let user := set_addresses user
          (push_address (addresses_or_empty user) new_id
             (default [] (req_body_address req))) in
        _ ← save user;
        mret SendSuccess
  end.

(** [Array.prototype.findIndex]; [None] stands for the result -1. *)
Definition findIndex {A} (P : A -> Prop) `{forall x, Decision (P x)}
  (l : list A) : option nat :=
  fst <$> list_find P l.

(** [array.splice(i, 1)] *)
Definition splice1 {A} (i : nat) (l : list A) : list A := delete i l.

(** [deleteAddress]: the same checks, then the first address whose [_id]
    string is [req.params.addressId] is spliced out and the user saved. *)
Definition deleteAddress (req : Request) : M Body :=
  user ← userService_getUserById (req_params_userId req);
  match user with
  | None => throw (ApiError httpStatus.NOT_FOUND "User not found")
  | Some user =>
      if decide (toString (u_id user) <> toString (u_id (req_user req)))
      then throw (ApiError httpStatus.FORBIDDEN "User not found")
      else
        let user := set_addresses user (addresses_or_empty user) in
        match findIndex
                (fun addr => toString (a_id addr) = req_params_addressId req)
                (addresses_or_empty user) with
        | None => throw (ApiError httpStatus.NOT_FOUND
                           "Address to delete was not found")
        | Some addressIndex =>
            let user := set_addresses user
              (splice1 addressIndex (addresses_or_empty user)) in
            _ ← save user;
            mret SendSuccess
        end
  end.

(** *** The model's statics and methods (user.model.js) *)

(** The store's answer to a query: the driver either resolves the promise or
    rejects it (connection loss, timeout). *)
Inductive Connection := Up | Down.

Inductive Promise (A : Type) :=
| Resolved (a : A)
| Rejected.
Arguments Resolved {A} a.
Arguments Rejected {A}.

(** The documents whose email is exactly [email]; the first one found. *)
Definition find_by_email (db : gmap string User) (email : jsstring) : option User :=
  (fun p => p.2.2) <$> list_find (fun p => u_email p.2 = email) (map_to_list db).

(** [this.findOne({email: email})]: Mongoose casts the filter through the
    path's setters ([trim], [lowercase]) and sends the query. *)
Definition findOne_email (c : Connection) (db : gmap string User)
  (email : jsstring) : Promise (option User) :=
  match c with
  | Down => Rejected
  | Up => Resolved (find_by_email db (toLowerCase (trim email)))
  end.

(** [userSchema.statics.isEmailTaken]: the [try] block returns by the
    truthiness of the result, the [catch] block returns [false]. *)
Definition isEmailTaken (c : Connection) (db : gmap string User)
  (email : jsstring) : bool :=
  match findOne_email c db email with
  | Resolved result => match result with Some _ => true | None => false end
  | Rejected => false
  end.

(** The value of [user.addresses && user.addresses.length > 0]. *)
Inductive JsValue := JsUndefined | JsBool (b : bool).

Definition truthy (v : JsValue) : bool :=
  match v with
  | JsBool b => b
  | JsUndefined => false
  end.

(** [userSchema.methods.hasSetNonDefaultAddress]: an absent collection is
    falsy and is the value of [&&]; an array, even empty, is truthy. *)
Definition hasSetNonDefaultAddress (user : User) : JsValue :=
  match u_addresses user with
  | None => JsUndefined
  | Some l => JsBool (0 <? Z.of_nat (length l))
  end.

(** *** Creating a user *)

(** The insert of a new document: the [_id] index and the unique index that
    [unique: true] declares on [email] refuse a duplicate key. *)
Definition insertOne (u : User) : M User := fun db =>
  if decide (is_Some (db !! u_id u)) then (Throw (DuplicateKey "_id"), db)
  else if decide (is_Some (find_by_email db (u_email u)))
  then (Throw (DuplicateKey "email"), db)
  else (Ok u, <[u_id u := u]> db).

(** [User.create(body)] under [userSchema]: the setters ([trim] on name,
    email and password, [lowercase] on email), the defaults (500 for
    [walletMoney], [config.default_address] for [address], no saved
    address), validation, then the insert under the fresh ObjectId [id]. *)
Definition create (id : ObjectId) (body : UserBody) : M User :=
  match b_name body, b_email body, b_password body with
  | Some n, Some e, Some p =>
      let user :=
        mkUser id (trim n) (toLowerCase (trim e)) (trim p)
          (default 500 (b_walletMoney body))
          (Some (default default_address (b_address body)))
          (Some []) in
      if validate user then insertOne user else throw MongooseValidationError
  | _, _, _ => throw MongooseValidationError
  end.

(** *** Checkout *)

Inductive Rejection := EmptyCart | NoAddress | InsufficientBalance.

Inductive Phase :=
| Idle
| Validating
| Committing (total : Z)
| Done (walletMoney : Z)
| Rejected_ (r : Rejection).

Record Checkout := mkCheckout {
  phase : Phase;
  ck_user : User;
  ck_cart : list CartItem
}.

(** Modelled from the spec: the cart total of the Checkout Engine (the cart
    service is not among the sources) is the sum of cost times quantity,
    which the frontend's [calculateTotal] computes. *)
Definition computeTotal (items : list CartItem) : Z := calculateTotal items.

(** Modelled from the spec: the Checkout Engine (the cart service is not
    among the sources), a state machine Idle, Validating, Committing, then
    Done or Rejected. Validation checks in order: the cart is not empty,
    the user has a saved address, the wallet covers the total. The commit
    is one transition: it debits the wallet and empties the cart. *)
Definition checkout_step (s : Checkout) : option Checkout :=
  match phase s with
  | Idle => Some (mkCheckout Validating (ck_user s) (ck_cart s))
  | Validating =>
      if (length (ck_cart s) =? 0)%nat
      then Some (mkCheckout (Rejected_ EmptyCart) (ck_user s) (ck_cart s))
      else if negb (truthy (hasSetNonDefaultAddress (ck_user s)))
      then Some (mkCheckout (Rejected_ NoAddress) (ck_user s) (ck_cart s))
      else
        let total := computeTotal (ck_cart s) in
        if u_walletMoney (ck_user s) <? total
        then Some (mkCheckout (Rejected_ InsufficientBalance) (ck_user s) (ck_cart s))
        else Some (mkCheckout (Committing total) (ck_user s) (ck_cart s))
  | Committing total =>
      let user := set_walletMoney (ck_user s) (u_walletMoney (ck_user s) - total) in
      Some (mkCheckout (Done (u_walletMoney user)) user [])
  | Done _ => None
  | Rejected_ _ => None
  end.

Fixpoint checkout_run (fuel : nat) (s : Checkout) : Checkout :=
  match fuel with
  | O => s
  | S fuel' =>
      match checkout_step s with
      | Some s' => checkout_run fuel' s'
      | None => s
      end
  end.

(** A checkout request: from [Idle] to the terminal phase, which takes at
    most three transitions. *)
Definition checkout (user : User) (cart : list CartItem) : Checkout :=
  checkout_run 3 (mkCheckout Idle user cart).

(** *** Histories of the users collection *)

Inductive Op :=
| OpCreate (id : ObjectId) (body : UserBody)
| OpSetAddress (req : Request)
| OpAddAddress (new_id : ObjectId) (req : Request)
| OpDeleteAddress (req : Request)
| OpCheckout (userId : ObjectId) (cart : list CartItem).

Definition exec (db : gmap string User) (op : Op) : gmap string User :=
  match op with
  | OpCreate id body => (create id body db).2
  | OpSetAddress req => (setAddress req db).2
  | OpAddAddress new_id req => (addAddress new_id req db).2
  | OpDeleteAddress req => (deleteAddress req db).2
  | OpCheckout userId cart =>
      (* the checkout of the spec, on the stored user and the given cart *)
      match db !! userId with
      | Some user => (save (ck_user (checkout user cart)) db).2
      | None => db
      end
  end.

(** The store after a history of operations, from the empty collection. *)
Definition run (ops : list Op) : gmap string User := fold_left exec ops ∅.

(** ** Outcomes, as the specification names them *)



(** What deleteAddress throws when no address has the identifier. *)
Definition address_not_found : Thrown :=
  ApiError httpStatus.NOT_FOUND "Address to delete was not found".

(** The HTTP status an [ApiError] carries. *)
Definition status {A} (r : Result A) : option Z :=
  match r with
  | Throw (ApiError statusCode _) => Some statusCode
  | _ => None
  end.


(** Every document is stored under its own [_id]. *)
Definition keyed_by_id (db : gmap string User) : Prop :=
  forall i u, db !! i = Some u -> u_id u = i.

(** No two documents hold the same email. *)
Definition unique_emails (db : gmap string User) : Prop :=
  forall i j u v,
    db !! i = Some u -> db !! j = Some v -> u_email u = u_email v -> i = j.

(** Stored emails are in lower case. *)
Definition lowercase_emails (db : gmap string User) : Prop :=
  forall i u, db !! i = Some u -> toLowerCase (u_email u) = u_email u.

Definition store_ok (db : gmap string User) : Prop :=
  keyed_by_id db /\ unique_emails db /\ lowercase_emails db.

Definition nonneg_wallets (db : gmap string User) : Prop :=
  forall i u, db !! i = Some u -> 0 <= u_walletMoney u.

(** A creation that leaves [walletMoney] out or gives a non-negative one. *)
Definition creates_nonneg (op : Op) : Prop :=
  match op with
  | OpCreate _ body => 0 <= default 500 (b_walletMoney body)
  | _ => True
  end.

(** What one operation can do to the collection: nothing, rewrite a stored
    document keeping its [_id] and email, or insert a new document. *)
Inductive effect (db : gmap string User) (op : Op) : gmap string User -> Prop :=
| effect_none : effect db op db
| effect_update i u u' :
    db !! i = Some u ->
    u_id u' = u_id u ->
    u_email u' = u_email u ->
    u_walletMoney u' = u_walletMoney u \/ 0 <= u_walletMoney u' ->
    effect db op (<[u_id u := u']> db)
| effect_create id body u :
    op = OpCreate id body ->
    db !! id = None ->
    find_by_email db (u_email u) = None ->
    u_id u = id ->
    toLowerCase (u_email u) = u_email u ->
    u_walletMoney u = default 500 (b_walletMoney body) ->
    effect db op (<[id := u]> db).

(** What every handler throws when the user id resolves to nothing. *)
Definition user_not_found : Thrown :=
  ApiError httpStatus.NOT_FOUND "User not found".

(** Two records of one account: the [_id], the name, the email, the
    password and the wallet balance agree. *)
Definition same_account (u u' : User) : Prop :=
  u_id u' = u_id u
  /\ u_name u' = u_name u
  /\ u_email u' = u_email u
  /\ u_password u' = u_password u
  /\ u_walletMoney u' = u_walletMoney u.

(** A document as the schema writes it: it passes validation, its email is
    trimmed and in lower case, every saved address is trimmed and not
    empty. *)
Definition document_clean (u : User) : Prop :=
  validate u = true
  /\ trim (u_email u) = u_email u
  /\ toLowerCase (u_email u) = u_email u
  /\ forall a, a ∈ addresses_or_empty u ->
       trim (a_address a) = a_address a /\ a_address a <> [].

(** ** Properties *)

(** *** The cart total *)







(** *** Checkout *)

Lemma checkout_unfold (user : User) (cart : list CartItem) :
  checkout user cart =
    if (length cart =? 0)%nat then mkCheckout (Rejected_ EmptyCart) user cart
    else if negb (truthy (hasSetNonDefaultAddress user))
    then mkCheckout (Rejected_ NoAddress) user cart
    else if u_walletMoney user <? computeTotal cart
    then mkCheckout (Rejected_ InsufficientBalance) user cart
    else mkCheckout (Done (u_walletMoney user - computeTotal cart))
           (set_walletMoney user (u_walletMoney user - computeTotal cart)) [].
Proof.
  unfold checkout. cbn [checkout_run checkout_step phase ck_user ck_cart].
  destruct (length cart =? 0)%nat; [reflexivity|].
  destruct (negb (truthy (hasSetNonDefaultAddress user))); [reflexivity|].
  destruct (u_walletMoney user <? computeTotal cart); reflexivity.
Qed.

Lemma length_eqb_0 {A} (l : list A) :
  (length l =? 0)%nat = true <-> l = [].
Proof. destruct l; simpl; split; congruence. Qed.

(** C1 (checkout modelled from the spec). A checkout always ends in Done or
    Rejected. When it ends in Done, the returned balance is the old balance
    minus the cart total, the user's walletMoney is that balance and the
    cart is empty, and all three preconditions held. When it ends in
    Rejected, the user record and the cart are exactly those before the
    attempt, and the rejection names the first precondition that failed. *)
Theorem checkout_all_or_nothing (user : User) (cart : list CartItem) :
  let s := checkout user cart in
  let total := computeTotal cart in
  match phase s with
  | Done w =>
      w = u_walletMoney user - total
      /\ ck_user s = set_walletMoney user w
      /\ u_walletMoney (ck_user s) = w
      /\ ck_cart s = []
      /\ cart <> []
      /\ truthy (hasSetNonDefaultAddress user) = true
      /\ total <= u_walletMoney user
  | Rejected_ r =>
      ck_user s = user
      /\ ck_cart s = cart
      /\ match r with
         | EmptyCart => cart = []
         | NoAddress =>
             cart <> [] /\ truthy (hasSetNonDefaultAddress user) = false
         | InsufficientBalance =>
             cart <> [] /\ truthy (hasSetNonDefaultAddress user) = true
             /\ u_walletMoney user < total
         end
  | Idle | Validating | Committing _ => False
  end.
Proof.
  cbv zeta. rewrite checkout_unfold.
  destruct (length cart =? 0)%nat eqn:Hlen.
  { apply length_eqb_0 in Hlen. cbn. auto. }
  assert (cart <> []) as Hne.
  { intros ->. discriminate Hlen. }
  destruct (truthy (hasSetNonDefaultAddress user)) eqn:Haddr; cbn [negb].
  2: { cbn. auto. }
  destruct (u_walletMoney user <? computeTotal cart) eqn:Hbal.
  - apply Z.ltb_lt in Hbal. cbn. auto.
  - apply Z.ltb_ge in Hbal. cbn. repeat split; auto.
Qed.

(** *** The non-default address precondition *)

Lemma truthy_hasSetNonDefaultAddress (user : User) :
  truthy (hasSetNonDefaultAddress user) = true <-> addresses_or_empty user <> [].
Proof.
  unfold hasSetNonDefaultAddress, addresses_or_empty.
  destruct (u_addresses user) as [[|a l]|]; cbn [truthy length].
  - split; [discriminate|congruence].
  - change (Z.of_nat (S (length l))) with (Z.pos (Pos.of_succ_nat (length l))).
    split; [discriminate|reflexivity].
  - split; [discriminate|congruence].
Qed.

(** C2, as amended (checkout modelled from the spec). The precondition holds
    exactly when the saved-address collection is not empty; the legacy
    address field has no part in it, whatever it holds; a user with an empty
    saved-address collection and a non-empty cart is rejected with
    NoAddress, and with an empty cart is rejected with EmptyCart. *)
Theorem hasSetNonDefaultAddress_saved_addresses_only (user : User) :
  (truthy (hasSetNonDefaultAddress user) = true <-> addresses_or_empty user <> [])
  /\ (forall legacy,
        hasSetNonDefaultAddress (set_address user legacy)
        = hasSetNonDefaultAddress user)
  /\ (forall cart,
        addresses_or_empty user = [] -> cart <> [] ->
        checkout user cart = mkCheckout (Rejected_ NoAddress) user cart)
  /\ (forall cart,
        addresses_or_empty user = [] -> cart = [] ->
        checkout user cart = mkCheckout (Rejected_ EmptyCart) user cart).
Proof.
  split; [apply truthy_hasSetNonDefaultAddress|].
  split; [reflexivity|].
  split.
  - intros cart Hnone Hcart. rewrite checkout_unfold.
    destruct (length cart =? 0)%nat eqn:Hlen.
    { apply length_eqb_0 in Hlen. contradiction. }
    destruct (truthy (hasSetNonDefaultAddress user)) eqn:Haddr; [|reflexivity].
    apply truthy_hasSetNonDefaultAddress in Haddr. contradiction.
  - intros cart _ ->. reflexivity.
Qed.

(** *** Reading the saved addresses *)

Ltac handler :=
  unfold mbind, M_bind, mret, M_ret, throw,
    userService_getUserById, userService_getUserAddressById.

Lemma getAddresses_owner (req : Request) (db : gmap string User) (user : User) :
  db !! req_params_userId req = Some user ->
  u_id user = u_id (req_user req) ->
  getAddresses req db = (Ok (SendAddresses (addresses_or_empty user)), db).
Proof.
  intros Hget Hown. unfold getAddresses. handler. rewrite Hget.
  unfold toString. destruct (decide _) as [Hne|_]; [contradiction|reflexivity].
Qed.

(** C10. For an existing user whose [_id] is the authenticated caller's,
    listing addresses succeeds with the list of saved addresses and leaves
    the store as it was; when the collection is absent or empty the list
    sent is the empty list. *)
Theorem getAddresses_returns_list (req : Request) (db : gmap string User)
  (user : User) :
  db !! req_params_userId req = Some user ->
  u_id user = u_id (req_user req) ->
  getAddresses req db = (Ok (SendAddresses (addresses_or_empty user)), db)
  /\ (u_addresses user = None \/ u_addresses user = Some [] ->
      getAddresses req db = (Ok (SendAddresses []), db)).
Proof.
  intros Hget Hown. split; [now apply getAddresses_owner|].
  intros Hnone. rewrite (getAddresses_owner req db user Hget Hown).
  unfold addresses_or_empty. destruct Hnone as [-> | ->]; reflexivity.
Qed.

(** *** Trimming *)

Lemma trimStart_length (s : jsstring) :
  (length (trimStart s) <= length s)%nat.
Proof.
  induction s as [|c s IH]; simpl; [lia|].
  destruct (is_space c); simpl; lia.
Qed.

Lemma trimEnd_length (s : jsstring) :
  (length (trimEnd s) <= length s)%nat.
Proof.
  induction s as [|c s IH]; simpl; [lia|].
  destruct (trimEnd s) as [|d t]; [destruct (is_space c)|]; simpl in *; lia.
Qed.

Lemma trim_length (s : jsstring) :
  (length (trim s) <= length s)%nat.
Proof.
  unfold trim. etransitivity; [apply trimEnd_length|apply trimStart_length].
Qed.

(** *** Validation of a document whose addresses changed *)

Lemma required_true (s : jsstring) : required s = true <-> s <> [].
Proof. unfold required. destruct (decide (s = [])); split; congruence. Qed.

Lemma validate_set_addresses (user : User) (l : list Address) :
  validate user = true ->
  validate (set_addresses user l)
  = forallb (fun a => required (a_address a)) l.
Proof.
  unfold validate. intros H. apply andb_prop in H as [H _].
  cbn [set_addresses u_name u_email u_password addresses_or_empty u_addresses].
  now rewrite H.
Qed.

Lemma validate_addresses (user : User) :
  validate user = true ->
  forallb (fun a => required (a_address a)) (addresses_or_empty user) = true.
Proof. unfold validate. intros H. now apply andb_prop in H as [_ H]. Qed.

Lemma forallb_sublist {A} (f : A -> bool) (l l' : list A) :
  (forall x, x ∈ l' -> x ∈ l) ->
  forallb f l = true -> forallb f l' = true.
Proof.
  intros Hsub H. apply forallb_forall. intros x Hx.
  apply (proj1 (forallb_forall f l) H).
  apply list_elem_of_In, Hsub, list_elem_of_In, Hx.
Qed.

(** *** Adding an address *)

Lemma address_too_short_Some (s : jsstring) :
  address_too_short (Some s) = false <-> (20 <= length s)%nat.
Proof.
  unfold address_too_short, required.
  destruct (decide (s = [])) as [->|Hne]; cbn [negb orb].
  - split; [discriminate|]. simpl. lia.
  - rewrite Nat.ltb_ge. tauto.
Qed.

Lemma addAddress_accepts (new_id : ObjectId) (req : Request)
  (db : gmap string User) (user : User) (s : jsstring) :
  db !! req_params_userId req = Some user ->
  u_id user = u_id (req_user req) ->
  validate user = true ->
  req_body_address req = Some s ->
  (20 <= length s)%nat ->
  trim s <> [] ->
  addAddress new_id req db
  = (Ok SendSuccess,
     <[u_id user :=
         set_addresses user
           (addresses_or_empty user ++ [mkAddress new_id (trim s)])]> db).
Proof.
  intros Hget Hown Hvalid Hbody Hlen Htrim.
  unfold addAddress. handler. rewrite Hget. unfold toString.
  destruct (decide _) as [Hne|_]; [contradiction|].
  rewrite Hbody. rewrite (proj2 (address_too_short_Some s) Hlen).
  cbn [default from_option id]. unfold save, push_address.
  cbn [addresses_or_empty set_addresses u_addresses].
  rewrite validate_set_addresses.
  2: { rewrite validate_set_addresses by assumption.
       now apply validate_addresses. }
  rewrite forallb_app, (validate_addresses user Hvalid).
  cbn [forallb a_address andb]. rewrite (proj2 (required_true _) Htrim).
  reflexivity.
Qed.

Lemma addAddress_rejects (new_id : ObjectId) (req : Request)
  (db : gmap string User) (user : User) :
  db !! req_params_userId req = Some user ->
  u_id user = u_id (req_user req) ->
  address_too_short (req_body_address req) = true ->
  addAddress new_id req db
  = (Throw (ApiError httpStatus.BAD_REQUEST
              "Address should be greater than 20 characters"), db).
Proof.
  intros Hget Hown Hshort.
  unfold addAddress. handler. rewrite Hget. unfold toString.
  destruct (decide _) as [Hne|_]; [contradiction|].
  now rewrite Hshort.
Qed.

(** C4, as amended. For an existing user whose [_id] is the caller's and
    whose stored record is valid: a text of at least 20 characters as sent
    (before trimming) passes the length check and, when something is left
    after trimming, a new Address holding the trimmed text is appended and
    saved; in particular every text of trimmed length at least 20 is
    accepted; a text of fewer than 20 characters as sent, or no text at all,
    fails with the 400 error and the store is unchanged. *)
Theorem addAddress_length_check (new_id : ObjectId) (req : Request)
  (db : gmap string User) (user : User) :
  db !! req_params_userId req = Some user ->
  u_id user = u_id (req_user req) ->
  validate user = true ->
  let appended s :=
    <[u_id user :=
        set_addresses user
          (addresses_or_empty user ++ [mkAddress new_id (trim s)])]> db in
  (forall s, req_body_address req = Some s ->
     (20 <= length s)%nat -> trim s <> [] ->
     addAddress new_id req db = (Ok SendSuccess, appended s))
  /\ (forall s, req_body_address req = Some s ->
       (20 <= length (trim s))%nat ->
       addAddress new_id req db = (Ok SendSuccess, appended s))
  /\ (forall s, req_body_address req = Some s ->
       (length s < 20)%nat ->
       addAddress new_id req db
       = (Throw (ApiError httpStatus.BAD_REQUEST
                   "Address should be greater than 20 characters"), db))
  /\ (req_body_address req = None ->
      addAddress new_id req db
      = (Throw (ApiError httpStatus.BAD_REQUEST
                  "Address should be greater than 20 characters"), db)).
Proof.
  intros Hget Hown Hvalid appended. subst appended. cbv beta.
  split; [|split; [|split]].
  - intros s Hbody Hlen Htrim. now apply addAddress_accepts.
  - intros s Hbody Hlen. apply addAddress_accepts; try assumption.
    + pose proof (trim_length s). lia.
    + intros Heq. rewrite Heq in Hlen. simpl in Hlen. lia.
  - intros s Hbody Hlen. apply (addAddress_rejects _ _ _ user); try assumption.
    rewrite Hbody. destruct (address_too_short (Some s)) eqn:E; [reflexivity|].
    apply address_too_short_Some in E. lia.
  - intros Hbody. apply (addAddress_rejects _ _ _ user); try assumption.
    now rewrite Hbody.
Qed.

(** *** Deleting an address *)

Lemma findIndex_None {A} (P : A -> Prop) `{forall x, Decision (P x)} (l : list A) :
  findIndex P l = None <-> forall x, x ∈ l -> ~ P x.
Proof.
  unfold findIndex. rewrite fmap_None, list_find_None, Forall_forall.
  reflexivity.
Qed.

Lemma findIndex_Some {A} (P : A -> Prop) `{forall x, Decision (P x)}
  (l : list A) (i : nat) :
  findIndex P l = Some i ->
  exists x, l = (take i l ++ x :: drop (S i) l)%list /\ P x
            /\ forall y, y ∈ take i l -> ~ P y.
Proof.
  unfold findIndex. intros Hfind.
  apply fmap_Some in Hfind as [[j x] [Hfind Hi]]. simpl in Hi. subst j.
  apply list_find_Some in Hfind as (Hx & HP & Hleast).
  exists x. split; [|split; [assumption|]].
  - symmetry. now apply take_drop_middle.
  - intros y Hy. apply list_elem_of_lookup in Hy as [j Hj].
    pose proof (lookup_lt_Some _ _ _ Hj) as Hlt. rewrite length_take in Hlt.
    rewrite lookup_take_lt in Hj by lia. apply (Hleast j y Hj). lia.
Qed.

Lemma deleteAddress_absent (req : Request) (db : gmap string User) (user : User) :
  db !! req_params_userId req = Some user ->
  u_id user = u_id (req_user req) ->
  (forall a, a ∈ addresses_or_empty user -> a_id a <> req_params_addressId req) ->
  deleteAddress req db = (Throw address_not_found, db).
Proof.
  intros Hget Hown Habsent.
  unfold deleteAddress. handler. rewrite Hget. unfold toString.
  destruct (decide _) as [Hne|_]; [contradiction|].
  cbn [addresses_or_empty set_addresses u_addresses].
  rewrite (proj2 (findIndex_None _ _) Habsent). reflexivity.
Qed.

Lemma deleteAddress_present (req : Request) (db : gmap string User)
  (user : User) (i : nat) :
  db !! req_params_userId req = Some user ->
  u_id user = u_id (req_user req) ->
  validate user = true ->
  findIndex (fun addr => a_id addr = req_params_addressId req)
    (addresses_or_empty user) = Some i ->
  deleteAddress req db
  = (Ok SendSuccess,
     <[u_id user := set_addresses user (delete i (addresses_or_empty user))]> db).
Proof.
  intros Hget Hown Hvalid Hfind.
  unfold deleteAddress. handler. rewrite Hget. unfold toString.
  destruct (decide _) as [Hne|_]; [contradiction|].
  cbn [addresses_or_empty set_addresses u_addresses].
  fold (addresses_or_empty user). rewrite Hfind.
  unfold save, splice1. cbn [addresses_or_empty set_addresses u_addresses].
  fold (addresses_or_empty user).
  rewrite validate_set_addresses.
  2: { rewrite validate_set_addresses by assumption.
       now apply validate_addresses. }
  rewrite (forallb_sublist _ (addresses_or_empty user)).
  - reflexivity.
  - intros x Hx. rewrite delete_take_drop in Hx.
    apply elem_of_app in Hx as [Hx|Hx].
    + rewrite <- (take_drop i (addresses_or_empty user)).
      apply elem_of_app. now left.
    + rewrite <- (take_drop (S i) (addresses_or_empty user)).
      apply elem_of_app. now right.
  - now apply validate_addresses.
Qed.

Lemma NoDup_ids_middle (l1 l2 : list Address) (a : Address) :
  NoDup (a_id <$> (l1 ++ a :: l2)%list) ->
  forall b, b ∈ (l1 ++ l2)%list -> a_id b <> a_id a.
Proof.
  rewrite fmap_app, fmap_cons. intros Hnd b Hb Heq.
  apply NoDup_app in Hnd as (_ & Hdisj & Hnd2).
  apply NoDup_cons in Hnd2 as [Hnot _].
  apply elem_of_app in Hb as [Hb|Hb].
  - apply (Hdisj (a_id a)).
    + rewrite <- Heq. now apply list_elem_of_fmap_2.
    + left.
  - apply Hnot. rewrite <- Heq. now apply list_elem_of_fmap_2.
Qed.

(** C6. For an existing user stored under its own [_id], whose [_id] is the
    caller's, whose record is valid and whose addresses have distinct
    identifiers: when no address has the given identifier, deleteAddress
    fails with the 404 error and the store is unchanged; when the address
    [a] has it, the call succeeds and the saved collection is the old one
    with [a] taken out and nothing else changed, no remaining address has
    that identifier, and a second call with the same identifier fails with
    the 404 error and changes nothing. *)
Theorem deleteAddress_by_identifier (req : Request) (db : gmap string User)
  (user : User) :
  db !! req_params_userId req = Some user ->
  u_id user = req_params_userId req ->
  u_id user = u_id (req_user req) ->
  validate user = true ->
  NoDup (a_id <$> addresses_or_empty user) ->
  ((forall a, a ∈ addresses_or_empty user ->
      a_id a <> req_params_addressId req) ->
   deleteAddress req db = (Throw address_not_found, db))
  /\ (forall a, a ∈ addresses_or_empty user ->
       a_id a = req_params_addressId req ->
       exists l1 l2 db',
         addresses_or_empty user = (l1 ++ a :: l2)%list
         /\ db' = <[u_id user := set_addresses user (l1 ++ l2)]> db
         /\ deleteAddress req db = (Ok SendSuccess, db')
         /\ (forall b, b ∈ (l1 ++ l2)%list ->
             a_id b <> req_params_addressId req)
         /\ deleteAddress req db' = (Throw address_not_found, db')).
Proof.
  intros Hget Hkey Hown Hvalid Hnd. split.
  { now apply deleteAddress_absent. }
  intros a Ha Hid.
  destruct (findIndex (fun addr => a_id addr = req_params_addressId req)
              (addresses_or_empty user)) as [i|] eqn:Hfind.
  2: { exfalso. exact (proj1 (findIndex_None _ _) Hfind a Ha Hid). }
  destruct (findIndex_Some _ _ _ Hfind) as (x & Hsplit & Hx & _).
  set (l1 := take i (addresses_or_empty user)) in *.
  set (l2 := drop (S i) (addresses_or_empty user)) in *.
  assert (forall b, b ∈ (l1 ++ l2)%list -> a_id b <> a_id x) as Hothers.
  { apply NoDup_ids_middle. now rewrite <- Hsplit. }
  assert (x = a) as ->.
  { rewrite Hsplit in Ha.
    apply elem_of_app in Ha as [Ha|Ha].
    - exfalso. apply (Hothers a); [apply elem_of_app; now left|congruence].
    - apply elem_of_cons in Ha as [->|Ha]; [reflexivity|].
      exfalso. apply (Hothers a); [apply elem_of_app; now right|congruence]. }
  exists l1, l2, (<[u_id user := set_addresses user (l1 ++ l2)]> db).
  split; [exact Hsplit|]. split; [reflexivity|].
  assert (delete i (addresses_or_empty user) = (l1 ++ l2)%list) as Hdel.
  { apply delete_take_drop. }
  split.
  { rewrite (deleteAddress_present req db user i) by assumption.
    now rewrite Hdel. }
  split.
  { intros b Hb. rewrite <- Hid. now apply Hothers. }
  apply (deleteAddress_absent _ _ (set_addresses user (l1 ++ l2))).
  - rewrite <- Hkey. apply lookup_insert_eq.
  - exact Hown.
  - cbn [addresses_or_empty set_addresses u_addresses].
    intros b Hb. rewrite <- Hid. now apply Hothers.
Qed.

(** *** Ownership checks *)









(** *** Queries by email *)

Lemma find_by_email_Some (db : gmap string User) (e : jsstring) (u : User) :
  find_by_email db e = Some u ->
  exists i, db !! i = Some u /\ u_email u = e.
Proof.
  unfold find_by_email. intros H.
  apply fmap_Some in H as [[k [i v]] [Hfind ->]].
  apply list_find_Some in Hfind as (Hk & He & _). simpl in *.
  exists i. split; [|assumption].
  apply elem_of_map_to_list. eapply list_elem_of_lookup_2; eassumption.
Qed.

Lemma find_by_email_None (db : gmap string User) (e : jsstring) :
  find_by_email db e = None <->
  forall i u, db !! i = Some u -> u_email u <> e.
Proof.
  unfold find_by_email. rewrite fmap_None, list_find_None, Forall_forall.
  split.
  - intros H i u Hget. apply (H (i, u)). now apply elem_of_map_to_list.
  - intros H [i u] Hin. apply (H i u). now apply elem_of_map_to_list.
Qed.

Lemma find_by_email_is_Some (db : gmap string User) (e : jsstring) :
  is_Some (find_by_email db e) <->
  exists i u, db !! i = Some u /\ u_email u = e.
Proof.
  split.
  - intros [u Hu]. apply find_by_email_Some in Hu as [i Hi]. eauto.
  - intros (i & u & Hget & He).
    destruct (find_by_email db e) eqn:E; [eauto|].
    exfalso. exact (proj1 (find_by_email_None db e) E i u Hget He).
Qed.

Lemma toLowerCase_idemp (s : jsstring) :
  toLowerCase (toLowerCase s) = toLowerCase s.
Proof. apply lower_idemp. Qed.

Lemma toLowerCase_trimmed (s : jsstring) :
  trim (toLowerCase (trim s)) = toLowerCase (trim s).
Proof. apply lower_trimmed. Qed.

Lemma isEmailTaken_Up (db : gmap string User) (e : jsstring) :
  isEmailTaken Up db e = true <->
  exists i u, db !! i = Some u /\ u_email u = toLowerCase (trim e).
Proof.
  unfold isEmailTaken, findOne_email.
  rewrite <- find_by_email_is_Some.
  destruct (find_by_email db (toLowerCase (trim e))); split;
    try discriminate; eauto.
  intros [? ?]. discriminate.
Qed.

(** C7. [isEmailTaken] answers [false] whenever the store rejects the query,
    whatever the collection holds: for every store that holds a user under
    the given email (as the schema reads it), the check answers [true] over
    a working connection and [false], the answer for an email that is not
    taken, when the query fails. *)
Theorem isEmailTaken_swallows_store_fault :
  (forall db e, isEmailTaken Down db e = false)
  /\ (forall db e i u,
        db !! i = Some u -> u_email u = toLowerCase (trim e) ->
        isEmailTaken Up db e = true /\ isEmailTaken Down db e = false).
Proof.
  split; [reflexivity|]. intros db e i u Hget Hemail.
  split; [|reflexivity]. apply isEmailTaken_Up. eauto.
Qed.

(** *** What an operation does to the collection *)

Lemma save_effect (db : gmap string User) (op : Op) (i : ObjectId) (u u' : User) :
  db !! i = Some u ->
  u_id u' = u_id u ->
  u_email u' = u_email u ->
  u_walletMoney u' = u_walletMoney u \/ 0 <= u_walletMoney u' ->
  effect db op (save u' db).2.
Proof.
  intros Hget Hid Hemail Hwallet. unfold save.
  destruct (validate u'); cbn [snd]; [|constructor].
  rewrite Hid. now apply (effect_update db op i).
Qed.

Lemma create_effect (db : gmap string User) (id : ObjectId) (body : UserBody) :
  effect db (OpCreate id body) (create id body db).2.
Proof.
  unfold create.
  destruct (b_name body) as [n|]; [|constructor].
  destruct (b_email body) as [e|]; [|constructor].
  destruct (b_password body) as [pw|]; [|constructor].
  destruct (validate _); [|constructor].
  unfold insertOne. cbn [u_id u_email].
  destruct (decide (is_Some (db !! id))) as [|Hfresh]; [constructor|].
  destruct (decide (is_Some (find_by_email db (toLowerCase (trim e)))))
    as [|Hfree]; [constructor|].
  cbn [snd]. apply (effect_create db _ id body); cbn [u_id u_email u_walletMoney].
  - reflexivity.
  - now apply eq_None_not_Some.
  - now apply eq_None_not_Some.
  - reflexivity.
  - apply toLowerCase_idemp.
  - reflexivity.
Qed.

Lemma checkout_user_effect (user : User) (cart : list CartItem) :
  let user' := ck_user (checkout user cart) in
  u_id user' = u_id user /\ u_email user' = u_email user
  /\ (u_walletMoney user' = u_walletMoney user \/ 0 <= u_walletMoney user').
Proof.
  cbv zeta. rewrite checkout_unfold.
  destruct (length cart =? 0)%nat; [cbn; auto|].
  destruct (negb _); [cbn; auto|].
  destruct (u_walletMoney user <? computeTotal cart) eqn:Hbal; [cbn; auto|].
  apply Z.ltb_ge in Hbal. cbn. repeat split; auto. right. lia.
Qed.

Lemma exec_effect (db : gmap string User) (op : Op) : effect db op (exec db op).
Proof.
  destruct op as [id body|req|new_id req|req|userId cart]; cbn [exec].
  - apply create_effect.
  - unfold setAddress, userService_setAddress. handler.
    destruct (db !! req_params_userId req) as [user|] eqn:Hget; [|constructor].
    destruct (decide _); [constructor|].
    match goal with |- context [save ?u db] =>
      pose proof (save_effect db (OpSetAddress req) _ user u
                    Hget eq_refl eq_refl (or_introl eq_refl)) as H;
      destruct (save u db) as [[[]|err] db']; exact H
    end.
  - unfold addAddress. handler.
    destruct (db !! req_params_userId req) as [user|] eqn:Hget; [|constructor].
    destruct (decide _); [constructor|].
    destruct (address_too_short _); [constructor|].
    match goal with |- context [save ?u db] =>
      pose proof (save_effect db (OpAddAddress new_id req) _ user u
                    Hget eq_refl eq_refl (or_introl eq_refl)) as H;
      destruct (save u db) as [[[]|err] db']; exact H
    end.
  - unfold deleteAddress. handler.
    destruct (db !! req_params_userId req) as [user|] eqn:Hget; [|constructor].
    destruct (decide _); [constructor|].
    destruct (findIndex _ _) as [i|]; [|constructor].
    match goal with |- context [save ?u db] =>
      pose proof (save_effect db (OpDeleteAddress req) _ user u
                    Hget eq_refl eq_refl (or_introl eq_refl)) as H;
      destruct (save u db) as [[[]|err] db']; exact H
    end.
  - destruct (db !! userId) as [user|] eqn:Hget; [|constructor].
    destruct (checkout_user_effect user cart) as (Hid & Hemail & Hwallet).
    now apply (save_effect db _ userId user).
Qed.

(** *** Invariants of the collection *)

Lemma effect_store_ok (db db' : gmap string User) (op : Op) :
  store_ok db -> effect db op db' -> store_ok db'.
Proof.
  intros (Hkey & Huniq & Hlow) Heff.
  destruct Heff as [|i u u' Hget Hid Hemail _|id body u _ Hfresh Hfree Hid Hl _].
  - now repeat split.
  - pose proof (Hkey _ _ Hget) as Hi. rewrite Hi.
    split; [|split].
    + intros j v Hj. destruct (decide (i = j)) as [<-|Hne].
      * rewrite lookup_insert_eq in Hj. injection Hj as <-. congruence.
      * rewrite lookup_insert_ne in Hj by assumption. eauto.
    + intros j k v w Hj Hk Heq.
      apply lookup_insert_Some in Hj as [[Hij Hv]|[Hnj Hj]];
        apply lookup_insert_Some in Hk as [[Hik Hw]|[Hnk Hk]].
      * congruence.
      * subst j v. apply (Huniq i k u w); congruence.
      * subst k w. apply (Huniq j i v u); congruence.
      * eauto.
    + intros j v Hj. destruct (decide (i = j)) as [<-|Hne].
      * rewrite lookup_insert_eq in Hj. injection Hj as <-.
        rewrite Hemail. eauto.
      * rewrite lookup_insert_ne in Hj by assumption. eauto.
  - pose proof (proj1 (find_by_email_None db _) Hfree) as Hnew.
    split; [|split].
    + intros j v Hj. destruct (decide (id = j)) as [<-|Hne].
      * rewrite lookup_insert_eq in Hj. injection Hj as <-. assumption.
      * rewrite lookup_insert_ne in Hj by assumption. eauto.
    + intros j k v w Hj Hk Heq.
      apply lookup_insert_Some in Hj as [[Hij Hv]|[Hnj Hj]];
        apply lookup_insert_Some in Hk as [[Hik Hw]|[Hnk Hk]].
      * congruence.
      * subst v. exfalso. apply (Hnew k w Hk). congruence.
      * subst w. exfalso. apply (Hnew j v Hj). congruence.
      * eauto.
    + intros j v Hj. destruct (decide (id = j)) as [<-|Hne].
      * rewrite lookup_insert_eq in Hj. injection Hj as <-. assumption.
      * rewrite lookup_insert_ne in Hj by assumption. eauto.
Qed.

Lemma effect_nonneg_wallets (db db' : gmap string User) (op : Op) :
  keyed_by_id db -> nonneg_wallets db -> creates_nonneg op ->
  effect db op db' -> nonneg_wallets db'.
Proof.
  intros Hkey Hnn Hop Heff.
  destruct Heff as [|i u u' Hget _ _ Hwallet|id body u -> _ _ _ _ Hwallet].
  - assumption.
  - intros j v Hj. destruct (decide (u_id u = j)) as [<-|Hne].
    + rewrite lookup_insert_eq in Hj. injection Hj as <-.
      destruct Hwallet as [->|]; eauto.
    + rewrite lookup_insert_ne in Hj by assumption. eauto.
  - intros j v Hj. destruct (decide (id = j)) as [<-|Hne].
    + rewrite lookup_insert_eq in Hj. injection Hj as <-.
      rewrite Hwallet. exact Hop.
    + rewrite lookup_insert_ne in Hj by assumption. eauto.
Qed.

Lemma store_ok_empty : store_ok ∅.
Proof.
  unfold store_ok, keyed_by_id, unique_emails, lowercase_emails.
  repeat split; intros;
    match goal with
    | H : ∅ !! _ = Some _ |- _ => rewrite lookup_empty in H; discriminate H
    end.
Qed.

Lemma fold_exec_store_ok (ops : list Op) (db : gmap string User) :
  store_ok db -> store_ok (fold_left exec ops db).
Proof.
  revert db. induction ops as [|op ops IH]; intros db Hok; [assumption|].
  cbn [fold_left]. apply IH. eapply effect_store_ok; [eassumption|].
  apply exec_effect.
Qed.

Lemma run_store_ok (ops : list Op) : store_ok (run ops).
Proof. apply fold_exec_store_ok, store_ok_empty. Qed.

Lemma fold_exec_nonneg_wallets (ops : list Op) (db : gmap string User) :
  store_ok db -> nonneg_wallets db -> Forall creates_nonneg ops ->
  nonneg_wallets (fold_left exec ops db).
Proof.
  revert db. induction ops as [|op ops IH]; intros db Hok Hnn Hops;
    [assumption|].
  apply Forall_cons in Hops as [Hop Hops]. cbn [fold_left].
  pose proof (exec_effect db op) as Heff. apply IH.
  - eapply effect_store_ok; eassumption.
  - eapply effect_nonneg_wallets; try eassumption. apply Hok.
  - assumption.
Qed.

(** *** Email uniqueness *)

(** C9, as amended. In every store reached from the empty collection by
    creations, address operations and checkouts, no two records have emails
    that are equal up to case (two emails are equal up to case when
    [toLowerCase] gives the same string for both); and, when the store
    answers the query, the email-taken check
    answers [true] exactly when some stored user's email equals the given
    email up to case, the given email being read as the schema reads it,
    trimmed (so literally the given email when it has no surrounding white
    space). *)
Theorem email_unique_case_insensitive (ops : list Op) (e : jsstring) :
  (forall i j u v,
      run ops !! i = Some u -> run ops !! j = Some v ->
      toLowerCase (u_email u) = toLowerCase (u_email v) -> i = j)
  /\ (isEmailTaken Up (run ops) e = true <->
      exists i u, run ops !! i = Some u
                  /\ toLowerCase (u_email u) = toLowerCase (trim e))
  /\ (trim e = e ->
      (isEmailTaken Up (run ops) e = true <->
       exists i u, run ops !! i = Some u
                   /\ toLowerCase (u_email u) = toLowerCase e)).
Proof.
  destruct (run_store_ok ops) as (Hkey & Huniq & Hlow).
  assert (isEmailTaken Up (run ops) e = true <->
          exists i u, run ops !! i = Some u
                      /\ toLowerCase (u_email u) = toLowerCase (trim e)) as Hiff.
  { rewrite isEmailTaken_Up. split; intros (i & u & Hget & He); exists i, u;
      (split; [assumption|]).
    - rewrite He. apply toLowerCase_idemp.
    - rewrite <- He. symmetry. eauto. }
  split; [|split].
  - intros i j u v Hi Hj Heq. apply (Huniq i j u v Hi Hj).
    rewrite <- (Hlow i u Hi), <- (Hlow j v Hj). exact Heq.
  - exact Hiff.
  - intros Htrim. rewrite Htrim in Hiff. exact Hiff.
Qed.

(** *** The wallet balance *)

Lemma create_inserts (id : ObjectId) (body : UserBody) (db : gmap string User)
  (n e pw : jsstring) :
  b_name body = Some n -> b_email body = Some e -> b_password body = Some pw ->
  let user :=
    mkUser id (trim n) (toLowerCase (trim e)) (trim pw)
      (default 500 (b_walletMoney body))
      (Some (default default_address (b_address body))) (Some []) in
  validate user = true ->
  db !! id = None ->
  find_by_email db (toLowerCase (trim e)) = None ->
  create id body db = (Ok user, <[id := user]> db).
Proof.
  intros Hn He Hpw user Hvalid Hfresh Hfree. subst user.
  unfold create. rewrite Hn, He, Hpw, Hvalid.
  unfold insertOne. cbn [u_id u_email]. rewrite Hfresh, Hfree.
  repeat (destruct (decide _) as [[? ?]|_]; [discriminate|]).
  reflexivity.
Qed.

Lemma create_Ok (id : ObjectId) (body : UserBody) (db db' : gmap string User)
  (u : User) :
  create id body db = (Ok u, db') ->
  u_walletMoney u = default 500 (b_walletMoney body) /\ db' = <[id := u]> db.
Proof.
  unfold create.
  destruct (b_name body) as [n|]; [|discriminate].
  destruct (b_email body) as [e|]; [|discriminate].
  destruct (b_password body) as [pw|]; [|discriminate].
  destruct (validate _); [|discriminate].
  unfold insertOne. cbn [u_id u_email].
  destruct (decide _); [discriminate|].
  destruct (decide _); [discriminate|].
  intros [= <- <-]. split; reflexivity.
Qed.

(** C8, as amended. A creation whose fields pass validation and whose keys
    are free stores the user with the walletMoney it gives, or 500 when it
    gives none: the schema sets no lower bound. In every store reached
    from the empty collection by operations whose creations give no
    walletMoney or a non-negative one, every user's walletMoney is
    non-negative. *)
Theorem walletMoney_default_and_invariant :
  (forall id body db n e pw,
      b_name body = Some n -> b_email body = Some e ->
      b_password body = Some pw ->
      let user :=
        mkUser id (trim n) (toLowerCase (trim e)) (trim pw)
          (default 500 (b_walletMoney body))
          (Some (default default_address (b_address body))) (Some []) in
      validate user = true ->
      db !! id = None ->
      find_by_email db (toLowerCase (trim e)) = None ->
      create id body db = (Ok user, <[id := user]> db)
      /\ (b_walletMoney body = None -> u_walletMoney user = 500)
      /\ (forall w, b_walletMoney body = Some w -> u_walletMoney user = w))
  /\ (forall id body db u db',
        create id body db = (Ok u, db') ->
        u_walletMoney u = default 500 (b_walletMoney body))
  /\ (forall ops,
        Forall creates_nonneg ops ->
        forall i u, run ops !! i = Some u -> 0 <= u_walletMoney u).
Proof.
  split; [|split].
  - intros id body db n e pw Hn He Hpw user Hvalid Hfresh Hfree.
    split; [now apply create_inserts|].
    subst user. cbn [u_walletMoney].
    split; [intros ->|intros w ->]; reflexivity.
  - intros id body db u db' Hcreate. now apply create_Ok in Hcreate as [? _].
  - intros ops Hops. apply fold_exec_nonneg_wallets; [apply store_ok_empty| |exact Hops].
    intros i u Hget. rewrite lookup_empty in Hget. discriminate.
Qed.

(** *** The handlers on a missing user, and what a failure leaves behind *)

(** X1. When the user id resolves to no record, each of the five handlers
    throws the 404 error "User not found" and leaves the store as it was,
    whoever the caller is and whatever the body holds: the existence check
    comes before the ownership check and before the length check. *)
Theorem handlers_user_not_found (new_id : ObjectId) (req : Request)
  (db : gmap string User) :
  db !! req_params_userId req = None ->
  getUser req db = (Throw user_not_found, db)
  /\ setAddress req db = (Throw user_not_found, db)
  /\ getAddresses req db = (Throw user_not_found, db)
  /\ addAddress new_id req db = (Throw user_not_found, db)
  /\ deleteAddress req db = (Throw user_not_found, db).
Proof.
  intros Hget.
  unfold getUser, setAddress, getAddresses, addAddress, deleteAddress.
  handler. destruct (decide (req_query_q req = Some "address"));
    rewrite Hget; repeat split; reflexivity.
Qed.

Lemma save_cases (u : User) (db : gmap string User) :
  (validate u = true /\ save u db = (Ok tt, <[u_id u := u]> db))
  \/ (validate u = false /\ save u db = (Throw MongooseValidationError, db)).
Proof. unfold save. destruct (validate u); [left|right]; split; reflexivity. Qed.

Ltac handler_cases :=
  unfold save in *; simpl in *;
  repeat (case_match; simpl in *; simplify_eq);
  try discriminate; try contradiction; try reflexivity.

(** X2. The two reading handlers never modify the store, whatever they
    answer; a writing handler that throws, for whatever reason (404, 403,
    400 or a failed schema validation in [save]), leaves the store exactly
    as it was. *)
Theorem handlers_failure_leaves_store (new_id : ObjectId) (req : Request)
  (db : gmap string User) :
  (getUser req db).2 = db
  /\ (getAddresses req db).2 = db
  /\ (forall e, (setAddress req db).1 = Throw e -> (setAddress req db).2 = db)
  /\ (forall e, (addAddress new_id req db).1 = Throw e ->
               (addAddress new_id req db).2 = db)
  /\ (forall e, (deleteAddress req db).1 = Throw e ->
               (deleteAddress req db).2 = db).
Proof.
  unfold getUser, setAddress, getAddresses, addAddress, deleteAddress,
    userService_setAddress.
  handler. repeat split; try intros e; handler_cases.
Qed.

(** *** What the writing handlers change *)

Lemma setAddress_store (req : Request) (db : gmap string User) (target : User) :
  db !! req_params_userId req = Some target ->
  (setAddress req db).2 = db
  \/ (validate
        (set_address target
           (Some (default default_address (req_body_address req)))) = true
      /\ (setAddress req db).2
         = <[u_id target :=
               set_address target
                 (Some (default default_address (req_body_address req)))]> db).
Proof.
  intros Hget. unfold setAddress, userService_setAddress. handler.
  rewrite Hget. destruct (decide _); [now left|].
  match goal with |- context [save ?u db] =>
    destruct (save_cases u db) as [[Hv ->]|[_ ->]] end;
    [right|left]; [split; [exact Hv|]|]; reflexivity.
Qed.

Lemma addAddress_store (new_id : ObjectId) (req : Request)
  (db : gmap string User) (target : User) :
  db !! req_params_userId req = Some target ->
  (addAddress new_id req db).2 = db
  \/ (exists s, req_body_address req = Some s
      /\ validate (set_addresses target
                     (addresses_or_empty target ++ [mkAddress new_id (trim s)]))
         = true
      /\ (addAddress new_id req db).2
         = <[u_id target :=
               set_addresses target
                 (addresses_or_empty target ++ [mkAddress new_id (trim s)])]> db).
Proof.
  intros Hget. unfold addAddress. handler. rewrite Hget.
  destruct (decide _); [now left|].
  destruct (req_body_address req) as [s|]; [|now left].
  destruct (address_too_short (Some s)); [now left|].
  cbn [default from_option id].
  match goal with |- context [save ?u db] =>
    destruct (save_cases u db) as [[Hv ->]|[_ ->]] end; [right|now left].
  exists s. split; [reflexivity|]. split; [exact Hv|reflexivity].
Qed.

Lemma deleteAddress_store (req : Request) (db : gmap string User)
  (target : User) :
  db !! req_params_userId req = Some target ->
  (deleteAddress req db).2 = db
  \/ (exists i,
       validate (set_addresses target (delete i (addresses_or_empty target)))
       = true
       /\ (deleteAddress req db).2
          = <[u_id target :=
                set_addresses target (delete i (addresses_or_empty target))]> db).
Proof.
  intros Hget. unfold deleteAddress. handler. rewrite Hget.
  destruct (decide _); [now left|].
  destruct (findIndex _ _) as [i|]; [|now left].
  match goal with |- context [save ?u db] =>
    destruct (save_cases u db) as [[Hv ->]|[_ ->]] end; [right|now left].
  exists i. split; [exact Hv|reflexivity].
Qed.

Lemma update_frame (db db' : gmap string User) (target u' : User) :
  db !! u_id target = Some target ->
  same_account target u' ->
  db' = db \/ db' = <[u_id target := u']> db ->
  (forall j, j <> u_id target -> db' !! j = db !! j)
  /\ exists u'', db' !! u_id target = Some u''
                 /\ same_account target u'' /\ (u'' = target \/ u'' = u').
Proof.
  intros Hget Hsame [->| ->].
  - split; [reflexivity|]. exists target.
    split; [assumption|]. split; [now repeat split|now left].
  - split.
    + intros j Hj. apply lookup_insert_ne. congruence.
    + exists u'. split; [apply lookup_insert_eq|]. split; [assumption|now right].
Qed.

(** X3. A writing handler touches one record only, the one stored under the
    requested user id (every document being stored under its own [_id]):
    all other records are as before, and whatever the outcome the record
    keeps its [_id], name, email, password and wallet balance. setAddress
    keeps the saved addresses; addAddress and deleteAddress keep the legacy
    address. *)
Theorem writing_handlers_frame (new_id : ObjectId) (req : Request)
  (db : gmap string User) (target : User) :
  db !! req_params_userId req = Some target ->
  u_id target = req_params_userId req ->
  (forall j, j <> req_params_userId req ->
     (setAddress req db).2 !! j = db !! j
     /\ (addAddress new_id req db).2 !! j = db !! j
     /\ (deleteAddress req db).2 !! j = db !! j)
  /\ (exists u', (setAddress req db).2 !! req_params_userId req = Some u'
                 /\ same_account target u'
                 /\ u_addresses u' = u_addresses target)
  /\ (exists u', (addAddress new_id req db).2 !! req_params_userId req = Some u'
                 /\ same_account target u'
                 /\ u_address u' = u_address target)
  /\ (exists u', (deleteAddress req db).2 !! req_params_userId req = Some u'
                 /\ same_account target u'
                 /\ u_address u' = u_address target).
Proof.
  intros Hget Hkey. rewrite <- Hkey in *.
  pose proof (setAddress_store req db target) as Hset.
  pose proof (addAddress_store new_id req db target) as Hadd.
  pose proof (deleteAddress_store req db target) as Hdel.
  rewrite <- Hkey in Hset, Hadd, Hdel.
  specialize (Hset Hget). specialize (Hadd Hget). specialize (Hdel Hget).
  assert ((setAddress req db).2 = db
          \/ (setAddress req db).2
             = <[u_id target :=
                   set_address target
                     (Some (default default_address (req_body_address req)))]> db)
    as Hset' by (destruct Hset as [->|[_ ->]]; auto).
  assert (exists ua,
            (addAddress new_id req db).2 = db
            \/ (addAddress new_id req db).2
               = <[u_id target := set_addresses target ua]> db) as [ua Hadd'].
  { destruct Hadd as [->|(s & _ & _ & ->)]; [exists []; now left|eauto]. }
  assert (exists ud,
            (deleteAddress req db).2 = db
            \/ (deleteAddress req db).2
               = <[u_id target := set_addresses target ud]> db) as [ud Hdel'].
  { destruct Hdel as [->|(i & _ & ->)]; [exists []; now left|eauto]. }
  destruct (update_frame db _ target
              (set_address target
                 (Some (default default_address (req_body_address req))))
              Hget ltac:(now repeat split) Hset') as [Hs1 (us & Hs2 & Hs3 & Hs4)].
  destruct (update_frame db _ target (set_addresses target ua)
              Hget ltac:(now repeat split) Hadd') as [Ha1 (ua' & Ha2 & Ha3 & Ha4)].
  destruct (update_frame db _ target (set_addresses target ud)
              Hget ltac:(now repeat split) Hdel') as [Hd1 (ud' & Hd2 & Hd3 & Hd4)].
  split; [intros j Hj; auto|].
  split; [exists us|split; [exists ua'|exists ud']];
    (split; [assumption|]); (split; [assumption|]).
  - destruct Hs4 as [->| ->]; reflexivity.
  - destruct Ha4 as [->| ->]; reflexivity.
  - destruct Hd4 as [->| ->]; reflexivity.
Qed.

(** *** Round trips through the store *)

Lemma getUser_owner (req : Request) (db : gmap string User) (user : User) :
  db !! req_params_userId req = Some user ->
  u_email user = u_email (req_user req) ->
  getUser req db
  = (Ok (if decide (req_query_q req = Some "address")
         then SendAddress (u_address user) else SendUser user), db).
Proof.
  intros Hget Hown. unfold getUser. handler.
  destruct (decide (req_query_q req = Some "address")); rewrite Hget;
    (destruct (decide _) as [Hne|_]; [contradiction|reflexivity]).
Qed.

Lemma setAddress_accepts (req : Request) (db : gmap string User) (user : User) :
  db !! req_params_userId req = Some user ->
  u_email user = u_email (req_user req) ->
  validate user = true ->
  setAddress req db
  = (Ok (SendAddress (req_body_address req)),
     <[u_id user :=
         set_address user
           (Some (default default_address (req_body_address req)))]> db).
Proof.
  intros Hget Hown Hvalid. unfold setAddress, userService_setAddress. handler.
  rewrite Hget. destruct (decide _) as [Hne|_]; [contradiction|].
  unfold save.
  match goal with |- context [validate ?u] =>
    replace (validate u) with true by (symmetry; exact Hvalid) end.
  reflexivity.
Qed.

(** X4. For an existing, valid user stored under its own [_id] whose email
    is the caller's, setAddress answers with the legacy address as sent (no
    trimming, no length check in the handler) and stores it; a later
    getUser with [q=address] by the same caller answers with that address,
    or with the schema default when the request carried no address, and a
    later getUser without [q] answers with the record whose only change is
    the legacy address. *)
Theorem setAddress_then_getUser (req req' : Request) (db : gmap string User)
  (user : User) :
  db !! req_params_userId req = Some user ->
  u_id user = req_params_userId req ->
  u_email user = u_email (req_user req) ->
  validate user = true ->
  req_params_userId req' = req_params_userId req ->
  u_email (req_user req') = u_email (req_user req) ->
  let stored := Some (default default_address (req_body_address req)) in
  let db' := <[u_id user := set_address user stored]> db in
  setAddress req db = (Ok (SendAddress (req_body_address req)), db')
  /\ (req_query_q req' = Some "address" ->
      getUser req' db' = (Ok (SendAddress stored), db'))
  /\ (req_query_q req' <> Some "address" ->
      getUser req' db' = (Ok (SendUser (set_address user stored)), db')).
Proof.
  intros Hget Hkey Hown Hvalid Hid' Hown' stored db'.
  split; [now apply setAddress_accepts|].
  assert (db' !! req_params_userId req' = Some (set_address user stored))
    as Hget'.
  { subst db'. rewrite Hid', <- Hkey. apply lookup_insert_eq. }
  assert (u_email (set_address user stored) = u_email (req_user req'))
    as Hemail by (cbn; congruence).
  split; intros Hq; rewrite (getUser_owner req' db' _ Hget' Hemail);
    destruct (decide _); try contradiction; reflexivity.
Qed.

Lemma validate_push (user : User) (new_id : ObjectId) (s : jsstring) :
  validate user = true -> trim s <> [] ->
  validate (set_addresses user
              (addresses_or_empty user ++ [mkAddress new_id (trim s)])) = true.
Proof.
  intros Hvalid Htrim. rewrite validate_set_addresses by assumption.
  rewrite forallb_app, (validate_addresses user Hvalid).
  cbn [forallb a_address andb]. now rewrite (proj2 (required_true _) Htrim).
Qed.

(** X5. After addAddress has accepted a text, getAddresses by the same
    caller lists the addresses that were there, in their order, followed by
    one new address that holds the trimmed text under the new identifier;
    and the stored user now passes hasSetNonDefaultAddress. *)
Theorem addAddress_then_getAddresses (new_id : ObjectId) (req req' : Request)
  (db : gmap string User) (user : User) (s : jsstring) :
  db !! req_params_userId req = Some user ->
  u_id user = req_params_userId req ->
  u_id user = u_id (req_user req) ->
  validate user = true ->
  req_body_address req = Some s ->
  (20 <= length s)%nat ->
  trim s <> [] ->
  req_params_userId req' = req_params_userId req ->
  u_id (req_user req') = u_id (req_user req) ->
  let db' := (addAddress new_id req db).2 in
  getAddresses req' db'
  = (Ok (SendAddresses
           (addresses_or_empty user ++ [mkAddress new_id (trim s)])), db')
  /\ (forall u', db' !! req_params_userId req = Some u' ->
        truthy (hasSetNonDefaultAddress u') = true).
Proof.
  intros Hget Hkey Hown Hvalid Hbody Hlen Htrim Hid' Hown' db'. subst db'.
  rewrite (addAddress_accepts new_id req db user s) by assumption.
  cbn [snd]. split.
  - rewrite (getAddresses_owner req' _
               (set_addresses user
                  (addresses_or_empty user ++ [mkAddress new_id (trim s)]))).
    + reflexivity.
    + rewrite Hid', <- Hkey. apply lookup_insert_eq.
    + cbn. congruence.
  - intros u' Hu'. rewrite <- Hkey, lookup_insert_eq in Hu'.
    injection Hu' as <-. apply truthy_hasSetNonDefaultAddress.
    cbn [addresses_or_empty set_addresses u_addresses].
    intros Hnil. apply app_eq_nil in Hnil as [_ Hnil]. discriminate.
Qed.

Lemma findIndex_snoc {A} (P : A -> Prop) `{forall x, Decision (P x)}
  (l : list A) (x : A) :
  (forall y, y ∈ l -> ~ P y) -> P x ->
  findIndex P (l ++ [x]) = Some (length l).
Proof.
  intros Hl Hx. unfold findIndex.
  rewrite list_find_app_r by (apply list_find_None, Forall_forall, Hl).
  cbn. destruct (decide (P x)); [reflexivity|contradiction].
Qed.

(** X6. Adding an address under an identifier that no saved address of the
    user has, then deleting that identifier, gives back the address
    collection as it was, same addresses in the same order: the second call
    succeeds and the stored record differs from the original at most in
    holding the empty collection where the collection was absent. *)
Theorem addAddress_then_deleteAddress (new_id : ObjectId) (req req' : Request)
  (db : gmap string User) (user : User) (s : jsstring) :
  db !! req_params_userId req = Some user ->
  u_id user = req_params_userId req ->
  u_id user = u_id (req_user req) ->
  validate user = true ->
  req_body_address req = Some s ->
  (20 <= length s)%nat ->
  trim s <> [] ->
  (forall a, a ∈ addresses_or_empty user -> a_id a <> new_id) ->
  req_params_userId req' = req_params_userId req ->
  u_id (req_user req') = u_id (req_user req) ->
  req_params_addressId req' = new_id ->
  deleteAddress req' (addAddress new_id req db).2
  = (Ok SendSuccess,
     <[u_id user := set_addresses user (addresses_or_empty user)]> db).
Proof.
  intros Hget Hkey Hown Hvalid Hbody Hlen Htrim Hfresh Hid' Hown' Haddr.
  rewrite (addAddress_accepts new_id req db user s) by assumption.
  cbn [snd].
  set (l := addresses_or_empty user).
  set (u1 := set_addresses user (l ++ [mkAddress new_id (trim s)])).
  rewrite (deleteAddress_present req' _ u1 (length l)).
  - cbn [u_id u1 set_addresses addresses_or_empty u_addresses].
    rewrite insert_insert_eq. do 2 f_equal.
    unfold set_addresses; cbn. f_equal. f_equal.
    rewrite (delete_middle l [] (mkAddress new_id (trim s))).
    apply app_nil_r.
  - rewrite Hid', <- Hkey. apply lookup_insert_eq.
  - cbn. congruence.
  - now apply validate_push.
  - cbn [u1 set_addresses addresses_or_empty u_addresses].
    apply findIndex_snoc.
    + intros y Hy. rewrite Haddr. now apply Hfresh.
    + cbn. congruence.
Qed.

(** X7. A text of at least 20 characters that is all white space passes the
    handler's length check but not the schema: the trimmed text is empty,
    [save] fails validation, and addAddress throws the validation error,
    not the 400 error, leaving the store unchanged. *)
Theorem addAddress_blank_text (new_id : ObjectId) (req : Request)
  (db : gmap string User) (user : User) (s : jsstring) :
  db !! req_params_userId req = Some user ->
  u_id user = u_id (req_user req) ->
  req_body_address req = Some s ->
  (20 <= length s)%nat ->
  trim s = [] ->
  addAddress new_id req db = (Throw MongooseValidationError, db).
Proof.
  intros Hget Hown Hbody Hlen Htrim.
  unfold addAddress. handler. rewrite Hget. unfold toString.
  destruct (decide _) as [Hne|_]; [contradiction|].
  rewrite Hbody, (proj2 (address_too_short_Some s) Hlen).
  cbn [default from_option id]. unfold save, push_address.
  cbn [addresses_or_empty set_addresses u_addresses].
  match goal with |- context [validate ?u] =>
    replace (validate u) with false; [reflexivity|] end.
  symmetry. unfold validate.
  cbn [addresses_or_empty set_addresses u_addresses].
  rewrite forallb_app, Htrim. cbn. now rewrite !andb_false_r.
Qed.

(** X8. The writing handlers keep the address identifiers of a user
    distinct: when they are distinct before, they are distinct in whatever
    record the store holds after deleteAddress, and after addAddress
    provided the new identifier is none of the user's. *)
Theorem address_ids_stay_distinct (new_id : ObjectId) (req : Request)
  (db : gmap string User) (user : User) :
  db !! req_params_userId req = Some user ->
  u_id user = req_params_userId req ->
  NoDup (a_id <$> addresses_or_empty user) ->
  (forall u', (deleteAddress req db).2 !! req_params_userId req = Some u' ->
      NoDup (a_id <$> addresses_or_empty u'))
  /\ ((forall a, a ∈ addresses_or_empty user -> a_id a <> new_id) ->
      forall u', (addAddress new_id req db).2 !! req_params_userId req = Some u' ->
      NoDup (a_id <$> addresses_or_empty u')).
Proof.
  intros Hget Hkey Hnd. split.
  - intros u' Hu'.
    destruct (deleteAddress_store req db user Hget) as [Heq|(i & _ & Heq)];
      rewrite Heq in Hu'.
    + congruence.
    + rewrite <- Hkey, lookup_insert_eq in Hu'. injection Hu' as <-.
      cbn [addresses_or_empty set_addresses u_addresses].
      rewrite list_fmap_delete.
      eapply sublist_NoDup; [exact Hnd|apply sublist_delete].
  - intros Hfresh u' Hu'.
    destruct (addAddress_store new_id req db user Hget)
      as [Heq|(s & _ & _ & Heq)];
      rewrite Heq in Hu'.
    + congruence.
    + rewrite <- Hkey, lookup_insert_eq in Hu'. injection Hu' as <-.
      cbn [addresses_or_empty set_addresses u_addresses].
      rewrite fmap_app. apply NoDup_app. split; [exact Hnd|].
      split; [|apply NoDup_singleton].
      intros x Hx Hx'. apply list_elem_of_fmap in Hx as (a & -> & Ha).
      apply list_elem_of_singleton in Hx'. cbn in Hx'.
      now apply (Hfresh a).
Qed.

(** *** The setters: trimming twice, trimming and lower case *)

Lemma trimEnd_idemp (s : jsstring) : trimEnd (trimEnd s) = trimEnd s.
Proof.
  induction s as [|c s IH]; [reflexivity|]. cbn [trimEnd].
  destruct (trimEnd s) as [|d t] eqn:E.
  - destruct (is_space c) eqn:Hc; [reflexivity|].
    cbn [trimEnd]. now rewrite Hc.
  - cbn [trimEnd]. cbn [trimEnd] in IH. now rewrite IH.
Qed.

Lemma trimStart_head (s : jsstring) :
  match trimStart s with
  | [] => True
  | c :: _ => is_space c = false
  end.
Proof.
  induction s as [|c s IH]; cbn [trimStart]; [exact I|].
  destruct (is_space c) eqn:Hc; [exact IH|exact Hc].
Qed.

Lemma trimStart_trimEnd (s : jsstring) :
  match s with
  | [] => True
  | c :: _ => is_space c = false
  end ->
  trimStart (trimEnd s) = trimEnd s.
Proof.
  destruct s as [|c s]; [reflexivity|]. intros Hc. cbn [trimEnd].
  destruct (trimEnd s); rewrite ?Hc; cbn [trimStart]; now rewrite Hc.
Qed.

Lemma trim_idemp (s : jsstring) : trim (trim s) = trim s.
Proof.
  unfold trim. rewrite trimStart_trimEnd by apply trimStart_head.
  apply trimEnd_idemp.
Qed.

(** *** Every stored document is as the schema writes it *)

Lemma validate_addresses_nonempty (u : User) (a : Address) :
  validate u = true -> a ∈ addresses_or_empty u -> a_address a <> [].
Proof.
  intros Hvalid Ha. apply required_true.
  apply (proj1 (forallb_forall _ _) (validate_addresses u Hvalid)).
  now apply list_elem_of_In.
Qed.

Lemma create_store (id : ObjectId) (body : UserBody) (db : gmap string User) :
  (create id body db).2 = db
  \/ (exists n e pw,
       b_name body = Some n /\ b_email body = Some e /\ b_password body = Some pw
       /\ let user :=
            mkUser id (trim n) (toLowerCase (trim e)) (trim pw)
              (default 500 (b_walletMoney body))
              (Some (default default_address (b_address body))) (Some []) in
          validate user = true
          /\ db !! id = None
          /\ find_by_email db (toLowerCase (trim e)) = None
          /\ create id body db = (Ok user, <[id := user]> db)).
Proof.
  unfold create.
  destruct (b_name body) as [n|]; [|now left].
  destruct (b_email body) as [e|]; [|now left].
  destruct (b_password body) as [pw|]; [|now left].
  destruct (validate _) eqn:Hvalid; [|now left].
  unfold insertOne. cbn [u_id u_email].
  destruct (decide (is_Some (db !! id))) as [|Hfresh]; [now left|].
  destruct (decide (is_Some (find_by_email db (toLowerCase (trim e)))))
    as [|Hfree]; [now left|].
  right. exists n, e, pw. repeat split; try assumption.
  - now apply eq_None_not_Some.
  - now apply eq_None_not_Some.
Qed.

Lemma document_clean_update (u u' : User) :
  document_clean u ->
  validate u' = true ->
  u_email u' = u_email u ->
  (forall a, a ∈ addresses_or_empty u' ->
     a ∈ addresses_or_empty u \/ trim (a_address a) = a_address a) ->
  document_clean u'.
Proof.
  intros (_ & Htrim & Hlow & Haddr) Hvalid Hemail Hsub.
  split; [assumption|]. rewrite Hemail. split; [assumption|].
  split; [assumption|]. intros a Ha.
  split; [|now apply (validate_addresses_nonempty u')].
  destruct (Hsub a Ha) as [Hold|Hnew]; [now apply Haddr|assumption].
Qed.

Lemma exec_clean (db : gmap string User) (op : Op) :
  (forall i u, db !! i = Some u -> document_clean u) ->
  forall i u, exec db op !! i = Some u -> document_clean u.
Proof.
  intros Hdb i u Hu.
  assert (forall target u' k v,
            db !! k = Some target ->
            validate u' = true ->
            u_email u' = u_email target ->
            (forall a, a ∈ addresses_or_empty u' ->
               a ∈ addresses_or_empty target \/ trim (a_address a) = a_address a) ->
            <[u_id target := u']> db !! i = Some v -> document_clean v) as Hup.
  { intros target u' k v Hk Hv He Ha Hi.
    apply lookup_insert_Some in Hi as [[_ <-]|[_ Hi]]; [|eauto].
    eapply document_clean_update; eauto. }
  destruct op as [id body|req|new_id req|req|userId cart]; cbn [exec] in Hu.
  - destruct (create_store id body db)
      as [Heq|(n & e & pw & _ & _ & _ & Hvalid & _ & _ & Heq)];
      rewrite Heq in Hu; [eauto|]. cbn [snd] in Hu.
    apply lookup_insert_Some in Hu as [[_ <-]|[_ Hu]]; [|eauto].
    split; [exact Hvalid|]. cbn [u_email addresses_or_empty u_addresses].
    split; [|split].
    + apply toLowerCase_trimmed.
    + apply toLowerCase_idemp.
    + intros a Ha. inversion Ha.
  - destruct (db !! req_params_userId req) as [target|] eqn:Hget.
    2: { unfold setAddress in Hu. revert Hu. handler. rewrite Hget. cbn. eauto. }
    destruct (setAddress_store req db target Hget) as [Heq|[Hv Heq]];
      rewrite Heq in Hu; [eauto|].
    apply (Hup target _ _ u Hget Hv eq_refl); [|exact Hu]. now left.
  - destruct (db !! req_params_userId req) as [target|] eqn:Hget.
    2: { unfold addAddress in Hu. revert Hu. handler. rewrite Hget. cbn. eauto. }
    destruct (addAddress_store new_id req db target Hget)
      as [Heq|(s & _ & Hv & Heq)]; rewrite Heq in Hu; [eauto|].
    apply (Hup target _ _ u Hget Hv eq_refl); [|exact Hu].
    cbn [addresses_or_empty set_addresses u_addresses]. intros a Ha.
    apply elem_of_app in Ha as [Ha|Ha]; [now left|right].
    apply list_elem_of_singleton in Ha as ->. apply trim_idemp.
  - destruct (db !! req_params_userId req) as [target|] eqn:Hget.
    2: { unfold deleteAddress in Hu. revert Hu. handler. rewrite Hget. cbn. eauto. }
    destruct (deleteAddress_store req db target Hget)
      as [Heq|(k & Hv & Heq)]; rewrite Heq in Hu; [eauto|].
    apply (Hup target _ _ u Hget Hv eq_refl); [|exact Hu].
    cbn [addresses_or_empty set_addresses u_addresses]. intros a Ha. left.
    eapply list_elem_of_delete_inv. exact Ha.
  - destruct (db !! userId) as [target|] eqn:Hget; [|eauto].
    destruct (save_cases (ck_user (checkout target cart)) db)
      as [[Hv Heq]|[_ Heq]]; rewrite Heq in Hu; cbn [snd] in Hu; [|eauto].
    destruct (checkout_user_effect target cart) as (Hid & Hemail & _).
    rewrite Hid in Hu. apply (Hup target _ _ u Hget Hv Hemail); [|exact Hu].
    intros a Ha. left. revert Ha. rewrite checkout_unfold.
    repeat case_match; cbn; auto.
Qed.

(** X9. In every store reached from the empty collection by creations,
    address operations and checkouts, every document passes the schema's
    validators (name, email and password as required, each saved address
    not empty), its email is trimmed and in lower case, and every saved
    address is trimmed and not empty. *)
Theorem stored_documents_clean (ops : list Op) (i : ObjectId) (u : User) :
  run ops !! i = Some u -> document_clean u.
Proof.
  unfold run.
  assert (forall db : gmap string User,
            (forall i u, db !! i = Some u -> document_clean u) ->
            forall i u, fold_left exec ops db !! i = Some u -> document_clean u)
    as Hfold.
  { induction ops as [|op ops IH]; intros db Hdb; [exact Hdb|].
    cbn [fold_left]. apply IH. now apply exec_clean. }
  apply Hfold. intros j v Hj. rewrite lookup_empty in Hj. discriminate.
Qed.

(** *** Creation, duplicates and the email-taken check *)

(** X10. [create] refuses duplicates without touching the store: in any
    reachable store, with all fields present and valid, a creation under an
    [_id] that is already stored fails with the duplicate-key error on
    [_id], and a creation under a fresh [_id] whose email equals a stored
    email up to case and surrounding white space fails with the
    duplicate-key error on [email]. *)
Theorem create_refuses_duplicates (ops : list Op) (id : ObjectId)
  (body : UserBody) (n e pw : jsstring) :
  b_name body = Some n -> b_email body = Some e -> b_password body = Some pw ->
  validate
    (mkUser id (trim n) (toLowerCase (trim e)) (trim pw)
       (default 500 (b_walletMoney body))
       (Some (default default_address (b_address body))) (Some [])) = true ->
  (is_Some (run ops !! id) ->
   create id body (run ops) = (Throw (DuplicateKey "_id"), run ops))
  /\ (run ops !! id = None ->
      forall i u, run ops !! i = Some u ->
        toLowerCase (u_email u) = toLowerCase (trim e) ->
        create id body (run ops) = (Throw (DuplicateKey "email"), run ops)).
Proof.
  intros Hn He Hpw Hvalid.
  destruct (run_store_ok ops) as (_ & _ & Hlow).
  unfold create. rewrite Hn, He, Hpw, Hvalid. unfold insertOne.
  cbn [u_id u_email]. split.
  - intros Hsome. destruct (decide _); [reflexivity|contradiction].
  - intros Hfresh i u Hget Hemail. rewrite Hfresh.
    destruct (decide (is_Some None)) as [[? ?]|_]; [discriminate|].
    destruct (decide _) as [_|Hfree]; [reflexivity|].
    exfalso. apply Hfree, find_by_email_is_Some. exists i, u.
    split; [assumption|]. rewrite <- Hemail. symmetry. eauto.
Qed.

(** X11. A creation succeeds only for an email the email-taken check
    reports as free; afterwards the check (over a working connection)
    answers [true] for that email in any case and with any surrounding
    white space, and answers as before for every other email. *)
Theorem create_then_isEmailTaken (id : ObjectId) (body : UserBody)
  (db db' : gmap string User) (u : User) (e : jsstring) :
  create id body db = (Ok u, db') ->
  b_email body = Some e ->
  isEmailTaken Up db e = false
  /\ (forall e', toLowerCase (trim e') = toLowerCase (trim e) ->
        isEmailTaken Up db' e' = true)
  /\ (forall e', toLowerCase (trim e') <> toLowerCase (trim e) ->
        isEmailTaken Up db' e' = isEmailTaken Up db e').
Proof.
  intros Hcreate He.
  destruct (create_store id body db)
    as [Heq|(n & e0 & pw & _ & He0 & _ & _ & Hfresh & Hfree & Heq)].
  { exfalso. rewrite Hcreate in Heq. cbn in Heq. subst db'.
    revert Hcreate. unfold create.
    repeat case_match; try discriminate.
    unfold insertOne. repeat case_match; try discriminate.
    intros [= _ Hdb]. cbn [u_id] in *.
    match goal with H : ¬ is_Some (db !! id) |- _ => apply H end.
    rewrite <- Hdb. rewrite lookup_insert_eq. eauto. }
  rewrite Hcreate in Heq. injection Heq as -> ->.
  assert (e0 = e) as -> by congruence.
  split; [|split].
  - unfold isEmailTaken, findOne_email. now rewrite Hfree.
  - intros e' He'. apply isEmailTaken_Up.
    eexists id, _. split; [apply lookup_insert_eq|]. cbn. congruence.
  - intros e' He'.
    assert (isEmailTaken Up (<[id := mkUser id (trim n) (toLowerCase (trim e))
                                  (trim pw) (default 500 (b_walletMoney body))
                                  (Some (default default_address (b_address body)))
                                  (Some [])]> db) e' = true
            <-> isEmailTaken Up db e' = true) as Hiff.
    { rewrite !isEmailTaken_Up. split; intros (i & v & Hget & Hv).
      - apply lookup_insert_Some in Hget as [[_ <-]|[_ Hget]]; [|eauto].
        cbn in Hv. congruence.
      - exists i, v. split; [|assumption].
        rewrite lookup_insert_ne; [assumption|]. congruence. }
    apply Bool.eq_iff_eq_true. exact Hiff.
Qed.

(** X12. Deleting the only saved address of a user leaves the stored record
    with the empty collection, which hasSetNonDefaultAddress reports as
    false: the array is still there, its length is 0. *)
Theorem deleteAddress_last_address (req : Request) (db : gmap string User)
  (user : User) (a : Address) :
  db !! req_params_userId req = Some user ->
  u_id user = req_params_userId req ->
  u_id user = u_id (req_user req) ->
  validate user = true ->
  addresses_or_empty user = [a] ->
  a_id a = req_params_addressId req ->
  exists u',
    (deleteAddress req db).2 !! req_params_userId req = Some u'
    /\ u_addresses u' = Some []
    /\ hasSetNonDefaultAddress u' = JsBool false.
Proof.
  intros Hget Hkey Hown Hvalid Hone Hid.
  rewrite (deleteAddress_present req db user 0 Hget Hown Hvalid).
  - cbn [snd]. rewrite Hone. cbn [delete list_delete].
    eexists. split; [rewrite <- Hkey; apply lookup_insert_eq|].
    split; reflexivity.
  - rewrite Hone. unfold findIndex. cbn.
    destruct (decide _) as [_|Hne]; [reflexivity|contradiction].
Qed.

(** X19. [create] stores nothing and fails validation when a required field
    is missing, or when, after the [trim] setter, the name or the email is
    empty, the lower-cased email does not pass [isEmail], or the password
    has fewer than 8 characters, no digit or no letter: white space around
    a password does not count towards its length. *)
Theorem create_validation_errors (id : ObjectId) (body : UserBody)
  (db : gmap string User) :
  (b_name body = None \/ b_email body = None \/ b_password body = None ->
   create id body db = (Throw MongooseValidationError, db))
  /\ (forall n e pw,
        b_name body = Some n -> b_email body = Some e ->
        b_password body = Some pw ->
        trim n = [] \/ trim e = []
        \/ isEmail (toLowerCase (trim e)) = false
        \/ (length (trim pw) < 8)%nat
        \/ match_class is_digit (trim pw) = false
        \/ match_class is_letter (trim pw) = false ->
        create id body db = (Throw MongooseValidationError, db)).
Proof.
  split.
  - unfold create. intros [-> | [-> | ->]]; repeat case_match; reflexivity.
  - intros n e pw Hn He Hpw Hbad. unfold create. rewrite Hn, He, Hpw.
    match goal with |- context [validate ?u] =>
      replace (validate u) with false; [reflexivity|] end.
    symmetry. unfold validate. cbn [u_name u_email u_password].
    destruct Hbad as [H|[H|[H|[H|[H|H]]]]].
    + rewrite H. reflexivity.
    + rewrite H. unfold toLowerCase. rewrite lower_nil. cbn.
      now rewrite andb_false_r.
    + rewrite H. now rewrite !andb_false_r.
    + apply Nat.leb_gt in H. rewrite H. now rewrite !andb_false_r.
    + rewrite H. now rewrite !andb_false_r.
    + rewrite H. now rewrite !andb_false_r.
Qed.

End Users.

(** ** Properties of the cart component *)



Lemma validateResponse_quiet (r : Response) :
  r_message r = None \/ r_message r = Some "" ->
  validateResponse false r = (true, []).
Proof. unfold validateResponse. intros [-> | ->]; reflexivity. Qed.

Lemma validateResponse_message (r : Response) (m : string) :
  r_message r = Some m -> m <> "" ->
  validateResponse false r = (false, [m]).
Proof.
  unfold validateResponse. intros -> Hm.
  unfold truthy_message. destruct (decide (m = "")); [contradiction|reflexivity].
Qed.

(** X14. What an update of the cart comes to. When [fetch] fails, both
    postToCart and putToCart show the generic error and leave the items.
    When the reply carries a non-empty [message], both show that message and
    leave the items. A PUT answered 204 refreshes the cart whatever the
    body, which is not read; a POST answered with a body that is not JSON
    (an empty 204 body, say) shows the generic error and does not refresh.
    Otherwise, a reply without a non-empty [message] refreshes the cart with
    the GET. *)
Theorem cart_update_outcomes (products : list Product) (get : Fetch)
  (items : list StateItem) :
  postToCart products NetworkError get items = (items, [generic_error])
  /\ putToCart products NetworkError get items = (items, [generic_error])
  /\ (forall st r m, r_message r = Some m -> m <> "" ->
        postToCart products (Reply st (Some r)) get items = (items, [m])
        /\ (st <> 204 ->
            putToCart products (Reply st (Some r)) get items = (items, [m])))
  /\ (forall body,
        putToCart products (Reply 204 body) get items
        = refreshCart products get items)
  /\ (forall st,
        postToCart products (Reply st None) get items = (items, [generic_error])
        /\ (st <> 204 ->
            putToCart products (Reply st None) get items
            = (items, [generic_error])))
  /\ (forall st r, r_message r = None \/ r_message r = Some "" ->
        postToCart products (Reply st (Some r)) get items
        = refreshCart products get items
        /\ putToCart products (Reply st (Some r)) get items
           = refreshCart products get items).
Proof.
  assert (forall st, st <> 204 -> negb (strict_eq (JsNum st) (JsNum 204)) = true)
    as Hne.
  { intros st Hst. cbn. now rewrite (proj2 (Z.eqb_neq st 204) Hst). }
  split; [reflexivity|]. split; [reflexivity|].
  split; [|split; [|split]].
  - intros st r m Hm Hne'. split.
    + unfold postToCart. cbn [fetch_json].
      now rewrite (validateResponse_message r m Hm Hne').
    + intros Hst. unfold putToCart. rewrite (Hne st Hst). cbn [strict_eq].
      now rewrite (validateResponse_message r m Hm Hne').
  - intros body. unfold putToCart. cbn.
    destruct (refreshCart products get items). reflexivity.
  - intros st. split; [reflexivity|].
    intros Hst. unfold putToCart. now rewrite (Hne st Hst).
  - intros st r Hquiet. split.
    + unfold postToCart. cbn [fetch_json].
      rewrite (validateResponse_quiet r Hquiet).
      destruct (refreshCart products get items). reflexivity.
    + unfold putToCart.
      destruct (negb (strict_eq (JsNum st) (JsNum 204))); cbn [strict_eq].
      * rewrite (validateResponse_quiet r Hquiet).
        destruct (refreshCart products get items). reflexivity.
      * cbn. destruct (refreshCart products get items). reflexivity.
Qed.

Lemma state_cart_found (products : list Product) (cartItems : list CartItem) :
  (forall item, item ∈ cartItems ->
     is_Some (find_product products (p_id (product item)))) ->
  exists lines,
    state_cart
      ((fun item =>
          mkStateItem (productId item) (quantity item)
            (find_product products (p_id (product item)))) <$> cartItems)
    = Some lines
    /\ Forall2
         (fun item line =>
            productId line = productId item
            /\ quantity line = quantity item
            /\ find_product products (p_id (product item)) = Some (product line))
         cartItems lines.
Proof.
  unfold state_cart.
  induction cartItems as [|item cartItems IH]; intros Hfound.
  - exists []. split; [reflexivity|constructor].
  - destruct (Hfound item) as [p Hp]; [left|].
    destruct IH as (lines & Hlines & Hrel).
    { intros x Hx. apply Hfound. now right. }
    exists (mkCartItem (productId item) (quantity item) p :: lines).
    split.
    + rewrite fmap_cons. cbn [mapM]. cbn [s_product s_productId s_quantity].
      rewrite Hp. cbn. rewrite Hlines. reflexivity.
    + constructor; [now repeat split|assumption].
Qed.

Lemma state_cart_missing (products : list Product) (cartItems : list CartItem)
  (item : CartItem) :
  item ∈ cartItems ->
  find_product products (p_id (product item)) = None ->
  state_cart
    ((fun item =>
        mkStateItem (productId item) (quantity item)
          (find_product products (p_id (product item)))) <$> cartItems)
  = None.
Proof.
  intros Hin Hnone. unfold state_cart. apply mapM_None.
  apply Exists_exists. eexists. split.
  - apply list_elem_of_fmap_2. exact Hin.
  - cbn. now rewrite Hnone.
Qed.

(** X15. When the GET reply carries [cartItems] and no non-empty [message],
    refreshCart shows nothing and replaces the items by one item per cart
    line, in order, keeping each line's productId and quantity and taking
    the product from the catalogue [props.products] by its [_id]. When
    every line's product is in the catalogue the total is computed from the
    catalogue's products, not from those embedded in the reply; when some
    line's product is not, computing the total throws. *)
Theorem refreshCart_products_from_catalogue (products : list Product)
  (st : Z) (r : Response) (cartItems : list CartItem) (items : list StateItem) :
  r_message r = None \/ r_message r = Some "" ->
  r_cartItems r = Some cartItems ->
  exists items',
    refreshCart products (Reply st (Some r)) items = (items', [])
    /\ length items' = length cartItems
    /\ ((forall item, item ∈ cartItems ->
           is_Some (find_product products (p_id (product item)))) ->
        exists lines,
          state_cart items' = Some lines
          /\ calculateTotal_state items' = Some (calculateTotal lines)
          /\ Forall2
               (fun item line =>
                  productId line = productId item
                  /\ quantity line = quantity item
                  /\ find_product products (p_id (product item))
                     = Some (product line))
               cartItems lines)
    /\ (forall item, item ∈ cartItems ->
          find_product products (p_id (product item)) = None ->
          calculateTotal_state items' = None).
Proof.
  intros Hquiet Hitems. eexists. split.
  { unfold refreshCart, getCart. cbn [fetch_json].
    rewrite (validateResponse_quiet r Hquiet), Hitems. reflexivity. }
  split; [apply length_fmap|]. split.
  - intros Hfound. destruct (state_cart_found products cartItems Hfound)
      as (lines & Hlines & Hrel).
    exists lines. split; [exact Hlines|]. split; [|exact Hrel].
    unfold calculateTotal_state. now rewrite Hlines.
  - intros item Hin Hnone. unfold calculateTotal_state.
    now rewrite (state_cart_missing products cartItems item Hin Hnone).
Qed.

(** ** Properties of the import script *)

Lemma split_newline_cons (s : jsstring) :
  exists h t, split_newline s = h :: t.
Proof.
  induction s as [|c s (h & t & IH)]; cbn [split_newline]; [eauto|].
  destruct (decide _); [eauto|]. rewrite IH. eauto.
Qed.

Lemma split_newline_app (a b : jsstring) :
  split_newline (a ++ 10%N :: b)
  = (split_newline a ++ split_newline b)%list.
Proof.
  induction a as [|c a IH].
  - reflexivity.
  - cbn [app split_newline].
    destruct (decide _); [now rewrite IH|].
    rewrite IH. destruct (split_newline_cons a) as (h & t & ->). reflexivity.
Qed.

Lemma split_newline_between (a b : jsstring) :
  split_newline (a ++ newline ++ b)
  = (split_newline a ++ split_newline b)%list.
Proof. apply split_newline_app. Qed.

Lemma split_newline_trailing (a : jsstring) :
  split_newline (a ++ newline) = (split_newline a ++ [[]])%list.
Proof. apply (split_newline_app a []). Qed.

Lemma split_newline_single (line : jsstring) :
  has_newline line = false -> split_newline line = [line].
Proof.
  induction line as [|c line IH]; cbn [has_newline split_newline];
    [reflexivity|].
  destruct (decide _); [discriminate|]. intros H. now rewrite (IH H).
Qed.

Lemma trim_empty (s : jsstring) : trim s = [] <-> trimStart s = [].
Proof.
  unfold trim. split; [|now intros ->].
  pose proof (trimStart_head s) as Hhead.
  destruct (trimStart s) as [|c t]; [reflexivity|]. cbn [trimEnd].
  destruct (trimEnd t); rewrite ?Hhead; discriminate.
Qed.

Lemma blank_lines (s : jsstring) :
  trimStart s = [] ->
  Forall (fun line => not_blank line <> true) (split_newline s).
Proof.
  assert (forall line, trimStart line = [] -> not_blank line <> true) as Hb.
  { intros line H. unfold not_blank.
    rewrite (proj2 (trim_empty line) H). discriminate. }
  induction s as [|c s IH]; cbn [trimStart split_newline]; intros Hs.
  - constructor; [now apply Hb|constructor].
  - destruct (is_space c) eqn:Hc; [|discriminate].
    specialize (IH Hs). destruct (decide _).
    + constructor; [now apply Hb|assumption].
    + destruct (split_newline s) as [|h t]; [constructor; [|constructor]|].
      * apply Hb. cbn. now rewrite Hc.
      * apply Forall_cons in IH as [Hh Ht]. constructor; [|assumption].
        apply Hb. cbn [trimStart]. rewrite Hc.
        unfold not_blank in Hh. destruct (trimStart h) eqn:E; [reflexivity|].
        exfalso. apply Hh. apply required_true. intros Hempty.
        apply trim_empty in Hempty. congruence.
Qed.

Lemma filter_blank_lines (s : jsstring) :
  trim s = [] ->
  filter (fun line => not_blank line = true) (split_newline s) = [].
Proof.
  intros Hs. apply trim_empty in Hs. apply blank_lines in Hs.
  induction Hs as [|line lines Hline _ IH]; [reflexivity|].
  rewrite filter_cons. destruct (decide _); [contradiction|assumption].
Qed.

Section ImportProperties.

Variable JSON_parse : jsstring -> option Json.
Variable Doc : Type.
Variable insertMany : list ProductDoc -> list Doc -> bool * list Doc.

(** X16. Blank lines do not count: a file and the same file with a line
    feed added at its end give the same products, a line of white space
    between two parts of a file can be taken out with its line feed, and a
    file of white space only gives no product at all. *)
Theorem productsData_blank_lines (text a blank b : jsstring) :
  productsData JSON_parse (text ++ newline) = productsData JSON_parse text
  /\ (trim blank = [] ->
      productsData JSON_parse (a ++ newline ++ blank ++ newline ++ b)
      = productsData JSON_parse (a ++ newline ++ b))
  /\ (trim blank = [] -> productsData JSON_parse blank = Some []).
Proof.
  unfold productsData.
  rewrite split_newline_trailing, !split_newline_between, !filter_app.
  split; [|split].
  - change (filter (fun line => not_blank line = true) [[]])
      with (@nil jsstring). now rewrite app_nil_r.
  - intros Hblank. now rewrite (filter_blank_lines blank Hblank).
  - intros Hblank. now rewrite (filter_blank_lines blank Hblank).
Qed.

(** X17. The script empties the products collection before it reads the
    file. When the connection fails, the collection is left as it was and
    the exit code is 1. Once connected, when the file cannot be read, or one
    non-blank line of it is rejected by [JSON.parse] or parses to a value
    whose [_id.$oid] cannot be read, the exit code is 1 and the collection
    is left empty, whatever it held. In every case, what a connected run
    leaves does not depend on what the collection held before. *)
Theorem importData_clears_first (products products' : list Doc)
  (file : option jsstring) (a line b : jsstring) :
  importData JSON_parse Doc insertMany false file products = (1, products)
  /\ importData JSON_parse Doc insertMany true None products = (1, [])
  /\ (has_newline line = false -> not_blank line = true ->
      (data ← JSON_parse line; to_product data) = None ->
      importData JSON_parse Doc insertMany true
        (Some (a ++ newline ++ line ++ newline ++ b)) products = (1, []))
  /\ importData JSON_parse Doc insertMany true file products
     = importData JSON_parse Doc insertMany true file products'.
Proof.
  split; [reflexivity|]. split; [reflexivity|]. split; [|reflexivity].
  intros Hline Hkept Hbad. unfold importData. cbn [negb].
  replace (productsData JSON_parse (a ++ newline ++ line ++ newline ++ b))
    with (@None (list ProductDoc)); [reflexivity|].
  symmetry. unfold productsData.
  rewrite !split_newline_between, !filter_app, (split_newline_single line Hline).
  apply mapM_None. apply Exists_app. right. apply Exists_app. left.
  rewrite filter_cons. destruct (decide _); [|contradiction].
  now constructor.
Qed.

End ImportProperties.

(** X18. One line converts to a product exactly when it parses to an object
    whose [_id] is there and is not [null]. The [$oid] of that [_id]
    becomes the product's [_id], [undefined] when the [_id] is not an
    object with that property; name, category, cost, rating and image are
    copied as they are, [undefined] when the line lacks them. *)
Theorem to_product_needs_id (data : Json) :
  (to_product data = None <->
   (forall fields, data <> JObj fields)
   \/ prop (Some data) "_id" = Some None
   \/ prop (Some data) "_id" = Some (Some JNull))
  /\ (forall doc, to_product data = Some doc ->
        (exists _id, prop (Some data) "_id" = Some (Some _id)
                     /\ prop (Some _id) "$oid" = Some (d_id doc))
        /\ prop (Some data) "name" = Some (d_name doc)
        /\ prop (Some data) "category" = Some (d_category doc)
        /\ prop (Some data) "cost" = Some (d_cost doc)
        /\ prop (Some data) "rating" = Some (d_rating doc)
        /\ prop (Some data) "image" = Some (d_image doc)).
Proof.
  unfold to_product.
  destruct data as [|bv|n|s|elems|fields]; cbn [prop mbind option_bind].
  1-5: split; [split; [intros _; left; intros fields; discriminate|reflexivity]
              |discriminate].
  destruct (list_find (fun f => f.1 = "_id") fields) as [[i [k v]]|] eqn:Hid;
    cbn [fmap option_fmap option_map snd mbind option_bind prop].
  2: { split; [split; [intros _; right; now left|reflexivity]|discriminate]. }
  destruct v as [|bv|n|s|elems|idfields];
    cbn [prop mbind option_bind fmap option_fmap option_map].
  1: { split; [split; [intros _; right; now right|reflexivity]|discriminate]. }
  all: split;
    [split; [discriminate|intros [H|[H|H]]; [now destruct (H fields)|discriminate..]]
    |intros doc [= <-]; cbn; split; [eexists; split; reflexivity|repeat split]].
Qed.

(** ** The properties on the sample data *)

(** *** The stand-in for [toLowerCase] has the three properties *)

Lemma is_space_range (c : N) : is_space c = true -> (c <= 32 \/ 160 <= c)%N.
Proof.
  unfold is_space. rewrite bool_decide_eq_true. intros [H|H]; [|lia].
  repeat (apply elem_of_cons in H as [->|H]; [lia|]). inversion H.
Qed.

Lemma lower_unit_cases (c : N) :
  (65 <= c <= 90 /\ lower_unit c = c + 32)%N
  \/ (~ (65 <= c <= 90)%N /\ lower_unit c = c).
Proof.
  unfold lower_unit. destruct ((65 <=? c) && (c <=? 90))%N eqn:E.
  - apply andb_true_iff in E as [E1 E2]. apply N.leb_le in E1, E2. left. lia.
  - right. split; [|reflexivity]. intros [H1 H2].
    apply N.leb_le in H1, H2. rewrite H1, H2 in E. discriminate.
Qed.

Lemma is_space_lower_unit (c : N) : is_space (lower_unit c) = is_space c.
Proof.
  destruct (lower_unit_cases c) as [[Hc ->]|[_ ->]]; [|reflexivity].
  destruct (is_space (c + 32)) eqn:E1, (is_space c) eqn:E2; try reflexivity.
  - apply is_space_range in E1. lia.
  - apply is_space_range in E2. lia.
Qed.

Lemma lower_ascii_idemp (s : jsstring) :
  lower_ascii (lower_ascii s) = lower_ascii s.
Proof.
  unfold lower_ascii. induction s as [|c s IH]; [reflexivity|].
  rewrite !fmap_cons, IH. f_equal.
  destruct (lower_unit_cases c) as [[Hc E]|[_ E]]; [|congruence].
  rewrite E.
  destruct (lower_unit_cases (c + 32)) as [[Hc' _]|[_ E']]; [lia|exact E'].
Qed.

Lemma trimStart_lower_ascii (s : jsstring) :
  trimStart (lower_ascii s) = lower_ascii (trimStart s).
Proof.
  unfold lower_ascii. induction s as [|c s IH]; [reflexivity|].
  rewrite fmap_cons. cbn [trimStart]. rewrite is_space_lower_unit.
  destruct (is_space c); [exact IH|reflexivity].
Qed.

Lemma trimEnd_lower_ascii (s : jsstring) :
  trimEnd (lower_ascii s) = lower_ascii (trimEnd s).
Proof.
  unfold lower_ascii. induction s as [|c s IH]; [reflexivity|].
  rewrite fmap_cons. cbn [trimEnd]. rewrite IH, is_space_lower_unit.
  destruct (trimEnd s); [destruct (is_space c)|]; reflexivity.
Qed.

Lemma lower_ascii_trimmed (s : jsstring) :
  trim (lower_ascii (trim s)) = lower_ascii (trim s).
Proof.
  unfold trim at 1. rewrite trimStart_lower_ascii, trimEnd_lower_ascii.
  f_equal. apply trim_idemp.
Qed.

Definition ascii_lowercase : Lowercase :=
  mkLowercase lower_ascii eq_refl lower_ascii_idemp lower_ascii_trimmed.


#[local] Set Warnings "-inexact-float".


Lemma hasSetNonDefaultAddress_saved_addresses_only_witness :
  addresses_or_empty crio_user = []
  /\ checkout crio_user sample_cart
     = mkCheckout (Rejected_ NoAddress) crio_user sample_cart.
Proof.
  split; [reflexivity|].
  apply (hasSetNonDefaultAddress_saved_addresses_only crio_user);
    [reflexivity|discriminate].
Defined.

Lemma hasSetNonDefaultAddress_empty_cart_counterexample :
  addresses_or_empty crio_user = []
  /\ phase (checkout crio_user []) = Rejected_ EmptyCart
  /\ phase (checkout crio_user []) <> Rejected_ NoAddress.
Proof. split; [reflexivity|]. split; [reflexivity|discriminate]. Qed.

Lemma getAddresses_returns_list_witness :
  getAddresses crio_request crio_db = (Ok (SendAddresses []), crio_db).
Proof.
  apply (getAddresses_returns_list crio_request crio_db crio_user);
    [reflexivity|reflexivity|right; reflexivity].
Defined.

Lemma addAddress_length_check_witness :
  validate contains_at crio_user = true
  /\ addAddress contains_at "60100a1b6c3477697e8eabb2" crio_request crio_db
     = (Ok SendSuccess,
        <[u_id crio_user :=
            set_addresses crio_user
              [mkAddress "60100a1b6c3477697e8eabb2"
                 (js "742 Evergreen Terrace, Springfield")]]> crio_db).
Proof.
  split; [reflexivity|].
  destruct (addAddress_length_check contains_at "60100a1b6c3477697e8eabb2"
              crio_request crio_db crio_user eq_refl eq_refl eq_refl)
    as (_ & Htrimmed & _).
  apply (Htrimmed (js "742 Evergreen Terrace, Springfield"));
    [reflexivity|vm_compute; lia].
Defined.

Lemma addAddress_padded_counterexample :
  (length (trim (js "                   a")) < 20)%nat
  /\ addAddress contains_at "60100a1b6c3477697e8eabb2" padded_request crio_db
     = (Ok SendSuccess,
        <[u_id crio_user :=
            set_addresses crio_user
              [mkAddress "60100a1b6c3477697e8eabb2" (js "a")]]> crio_db).
Proof. split; [vm_compute; lia|reflexivity]. Qed.




Lemma isEmailTaken_swallows_store_fault_witness :
  isEmailTaken ascii_lowercase Up crio_db (js "Crio-User@Gmail.com") = true
  /\ isEmailTaken ascii_lowercase Down crio_db (js "Crio-User@Gmail.com")
     = false.
Proof.
  destruct (isEmailTaken_swallows_store_fault ascii_lowercase) as [_ Hstored].
  apply (Hstored crio_db (js "Crio-User@Gmail.com") (u_id crio_user) crio_user);
    reflexivity.
Defined.

(** With the sample user created and stored, the check on that user's email
    answers [false] when the query fails. *)
Lemma isEmailTaken_store_fault_counterexample :
  run contains_at ascii_lowercase
    [OpCreate "6010008e6c3477697e8eaba3" crio_body]
    !! "6010008e6c3477697e8eaba3" = Some crio_user
  /\ lower_ascii (u_email crio_user) = lower_ascii (js "crio-user@gmail.com")
  /\ isEmailTaken ascii_lowercase Down
       (run contains_at ascii_lowercase
          [OpCreate "6010008e6c3477697e8eaba3" crio_body])
       (js "crio-user@gmail.com") = false.
Proof. repeat split. Qed.

(** Twenty no-break spaces pass the length check and are trimmed to the
    empty string, which the schema refuses. *)
Lemma addAddress_nbsp_text :
  addAddress contains_at "60100a1b6c3477697e8eabb2" nbsp_request crio_db
  = (Throw MongooseValidationError, crio_db).
Proof. reflexivity. Qed.

Lemma deleteAddress_by_identifier_witness :
  exists l1 l2 db',
    addresses_or_empty crio_user_with_addresses = (l1 ++ home :: l2)%list
    /\ db' = <[u_id crio_user_with_addresses :=
                 set_addresses crio_user_with_addresses (l1 ++ l2)]>
               crio_db_with_addresses
    /\ deleteAddress contains_at crio_request crio_db_with_addresses
       = (Ok SendSuccess, db')
    /\ (forall b, b ∈ (l1 ++ l2)%list ->
        a_id b <> req_params_addressId crio_request)
    /\ deleteAddress contains_at crio_request db' = (Throw address_not_found, db').
Proof.
  assert (NoDup (a_id <$> addresses_or_empty crio_user_with_addresses)) as Hnd.
  { repeat constructor; rewrite ?list_elem_of_In; cbn; intuition discriminate. }
  destruct (deleteAddress_by_identifier contains_at crio_request
              crio_db_with_addresses crio_user_with_addresses
              eq_refl eq_refl eq_refl eq_refl Hnd) as [_ Hpresent].
  apply (Hpresent home); [left|reflexivity].
Defined.

Lemma walletMoney_default_and_invariant_witness :
  create contains_at ascii_lowercase "6010008e6c3477697e8eaba3" crio_body ∅
  = (Ok crio_user, crio_db)
  /\ u_walletMoney crio_user = 500
  /\ (forall i u,
        run contains_at ascii_lowercase [OpCreate "6010008e6c3477697e8eaba3" crio_body] !! i
        = Some u ->
        0 <= u_walletMoney u).
Proof.
  destruct (walletMoney_default_and_invariant contains_at ascii_lowercase)
    as (Hcreate & _ & Hinv).
  destruct (Hcreate "6010008e6c3477697e8eaba3" crio_body ∅
              (js "crio-users") (js "Crio-User@Gmail.com") (js "criouser123")
              eq_refl eq_refl eq_refl eq_refl (lookup_empty _))
    as (Hok & Hdefault & _); [vm_compute; reflexivity|].
  split; [exact Hok|]. split; [exact (Hdefault eq_refl)|].
  apply Hinv. repeat constructor. cbn. lia.
Defined.

Lemma walletMoney_negative_counterexample :
  run contains_at ascii_lowercase [OpCreate "6010008e6c3477697e8eaba3" overdrawn_body]
    !! "6010008e6c3477697e8eaba3"
  = Some (set_walletMoney crio_user (-1))
  /\ u_walletMoney (set_walletMoney crio_user (-1)) < 0.
Proof. split; [reflexivity|cbn; lia]. Qed.

Lemma email_unique_case_insensitive_witness :
  isEmailTaken ascii_lowercase Up
    (run contains_at ascii_lowercase [OpCreate "6010008e6c3477697e8eaba3" crio_body])
    (js "CRIO-USER@GMAIL.COM") = true.
Proof.
  destruct (email_unique_case_insensitive contains_at ascii_lowercase
              [OpCreate "6010008e6c3477697e8eaba3" crio_body]
              (js "CRIO-USER@GMAIL.COM")) as (_ & _ & Hiff).
  apply (Hiff eq_refl).
  exists "6010008e6c3477697e8eaba3", crio_user. split; reflexivity.
Defined.

(** ** The further properties on the sample data *)

Lemma handlers_user_not_found_witness :
  getUser unknown_request crio_db = (Throw user_not_found, crio_db)
  /\ addAddress contains_at "60100a1b6c3477697e8eabb2" unknown_request crio_db
     = (Throw user_not_found, crio_db).
Proof.
  destruct (handlers_user_not_found contains_at "60100a1b6c3477697e8eabb2"
              unknown_request crio_db eq_refl) as (Hget & _ & _ & Hadd & _).
  split; assumption.
Defined.

Lemma handlers_failure_leaves_store_witness :
  (addAddress contains_at "60100a1b6c3477697e8eabb2" blank_request crio_db).2
  = crio_db.
Proof.
  destruct (handlers_failure_leaves_store contains_at
              "60100a1b6c3477697e8eabb2" blank_request crio_db)
    as (_ & _ & _ & Hadd & _).
  apply (Hadd MongooseValidationError). reflexivity.
Defined.

Lemma writing_handlers_frame_witness :
  exists u',
    (addAddress contains_at "60100a1b6c3477697e8eabb2" crio_request crio_db).2
      !! req_params_userId crio_request = Some u'
    /\ same_account crio_user u'
    /\ u_address u' = u_address crio_user.
Proof.
  destruct (writing_handlers_frame contains_at "60100a1b6c3477697e8eabb2"
              crio_request crio_db crio_user eq_refl eq_refl)
    as (_ & _ & Hadd & _).
  exact Hadd.
Defined.

Lemma setAddress_then_getUser_witness :
  getUser address_query_request
    (<[u_id crio_user :=
         set_address crio_user (req_body_address crio_request)]> crio_db)
  = (Ok (SendAddress (Some (js "742 Evergreen Terrace, Springfield"))),
     <[u_id crio_user :=
         set_address crio_user (req_body_address crio_request)]> crio_db).
Proof.
  destruct (setAddress_then_getUser contains_at crio_request
              address_query_request crio_db crio_user
              eq_refl eq_refl eq_refl eq_refl eq_refl eq_refl)
    as (_ & Hquery & _).
  apply Hquery. reflexivity.
Defined.

Lemma addAddress_then_getAddresses_witness :
  getAddresses crio_request
    (addAddress contains_at "60100a1b6c3477697e8eabb2" crio_request crio_db).2
  = (Ok (SendAddresses
           [mkAddress "60100a1b6c3477697e8eabb2"
              (js "742 Evergreen Terrace, Springfield")]),
     (addAddress contains_at "60100a1b6c3477697e8eabb2" crio_request crio_db).2).
Proof.
  refine (proj1 (addAddress_then_getAddresses contains_at
                   "60100a1b6c3477697e8eabb2" crio_request crio_request
                   crio_db crio_user (js "742 Evergreen Terrace, Springfield")
                   eq_refl eq_refl eq_refl eq_refl eq_refl _ _ eq_refl eq_refl)).
  - vm_compute. lia.
  - discriminate.
Defined.

Lemma addAddress_then_deleteAddress_witness :
  deleteAddress contains_at delete_new_request
    (addAddress contains_at "60100a1b6c3477697e8eabb2" crio_request
       crio_db_with_addresses).2
  = (Ok SendSuccess,
     <[u_id crio_user :=
         set_addresses crio_user_with_addresses [home; office]]>
       crio_db_with_addresses).
Proof.
  refine (addAddress_then_deleteAddress contains_at
            "60100a1b6c3477697e8eabb2" crio_request delete_new_request
            crio_db_with_addresses crio_user_with_addresses
            (js "742 Evergreen Terrace, Springfield")
            eq_refl eq_refl eq_refl eq_refl eq_refl _ _ _ eq_refl eq_refl
            eq_refl).
  - vm_compute. lia.
  - discriminate.
  - intros a Ha. cbn in Ha.
    apply elem_of_cons in Ha as [->|Ha]; [discriminate|].
    apply list_elem_of_singleton in Ha as ->. discriminate.
Defined.

Lemma addAddress_blank_text_witness :
  addAddress contains_at "60100a1b6c3477697e8eabb2" blank_request crio_db
  = (Throw MongooseValidationError, crio_db).
Proof.
  refine (addAddress_blank_text contains_at "60100a1b6c3477697e8eabb2"
            blank_request crio_db crio_user (js "                    ")
            eq_refl eq_refl eq_refl _ eq_refl).
  vm_compute. lia.
Defined.

Lemma address_ids_stay_distinct_witness :
  (deleteAddress contains_at crio_request crio_db_with_addresses).2
    !! req_params_userId crio_request
  = Some (set_addresses crio_user_with_addresses [office])
  /\ NoDup (a_id <$> addresses_or_empty
                       (set_addresses crio_user_with_addresses [office])).
Proof.
  split; [reflexivity|].
  refine (proj1 (address_ids_stay_distinct contains_at
                   "60100a1b6c3477697e8eabb2" crio_request
                   crio_db_with_addresses crio_user_with_addresses
                   eq_refl eq_refl _)
            (set_addresses crio_user_with_addresses [office]) eq_refl).
  repeat constructor; rewrite ?list_elem_of_In; cbn; intuition discriminate.
Defined.

Lemma stored_documents_clean_witness : document_clean contains_at ascii_lowercase crio_user.
Proof.
  apply (stored_documents_clean contains_at ascii_lowercase
           [OpCreate "6010008e6c3477697e8eaba3" crio_body]
           "6010008e6c3477697e8eaba3" crio_user).
  reflexivity.
Defined.

Lemma create_refuses_duplicates_witness :
  create contains_at ascii_lowercase "6010008e6c3477697e8eaba4" shouting_body
    (run contains_at ascii_lowercase [OpCreate "6010008e6c3477697e8eaba3" crio_body])
  = (Throw (DuplicateKey "email"),
     run contains_at ascii_lowercase [OpCreate "6010008e6c3477697e8eaba3" crio_body]).
Proof.
  refine (proj2 (create_refuses_duplicates contains_at ascii_lowercase
                   [OpCreate "6010008e6c3477697e8eaba3" crio_body]
                   "6010008e6c3477697e8eaba4" shouting_body
                   (js "someone") (js " CRIO-USER@GMAIL.COM ") (js "password1")
                   eq_refl eq_refl eq_refl eq_refl)
            _ "6010008e6c3477697e8eaba3" crio_user _ eq_refl);
    reflexivity.
Defined.

Lemma create_then_isEmailTaken_witness :
  isEmailTaken ascii_lowercase Up ∅ (js "Crio-User@Gmail.com") = false
  /\ isEmailTaken ascii_lowercase Up crio_db (js " CRIO-USER@GMAIL.COM ") = true.
Proof.
  assert (create contains_at ascii_lowercase "6010008e6c3477697e8eaba3" crio_body ∅
          = (Ok crio_user, crio_db)) as Hcreate by reflexivity.
  destruct (create_then_isEmailTaken contains_at ascii_lowercase _ _ _ _ _
              (js "Crio-User@Gmail.com") Hcreate eq_refl) as (Hfree & Htaken & _).
  split; [exact Hfree|]. apply Htaken. reflexivity.
Defined.

Lemma deleteAddress_last_address_witness :
  exists u',
    (deleteAddress contains_at crio_request crio_db_at_home).2
      !! req_params_userId crio_request = Some u'
    /\ u_addresses u' = Some []
    /\ hasSetNonDefaultAddress u' = JsBool false.
Proof.
  exact (deleteAddress_last_address contains_at crio_request crio_db_at_home
           crio_user_at_home home eq_refl eq_refl eq_refl eq_refl eq_refl
           eq_refl).
Defined.


Lemma cart_update_outcomes_witness :
  putToCart catalogue (Reply 404 (Some (mkResponse (Some "Product doesn't exist") None)))
    NetworkError []
  = ([], ["Product doesn't exist"]).
Proof.
  destruct (cart_update_outcomes catalogue NetworkError [])
    as (_ & _ & Hmessage & _).
  apply (Hmessage 404 _ "Product doesn't exist"); [reflexivity|discriminate|lia].
Defined.

Lemma refreshCart_products_from_catalogue_witness :
  exists items',
    refreshCart catalogue (Reply 200 (Some cart_reply)) [] = (items', [])
    /\ calculateTotal_state items' = Some 450.
Proof.
  destruct (refreshCart_products_from_catalogue catalogue 200 cart_reply
              [mkCartItem "KCRwjF7lN97HnEaY" 2 old_tshirt;
               mkCartItem "BW0jAAeDJmlZCF8i" 3 bottle] []
              (or_introl eq_refl) eq_refl)
    as (items' & Hrefresh & _ & Hfound & _).
  exists items'. split; [exact Hrefresh|].
  injection Hrefresh as <-. reflexivity.
Defined.

Lemma productsData_blank_lines_witness :
  productsData parse_bottle (bottle_line ++ newline ++ (js "   ") ++ newline ++ bottle_line)
  = productsData parse_bottle (bottle_line ++ newline ++ bottle_line).
Proof.
  destruct (productsData_blank_lines parse_bottle [] bottle_line (js "   ")
              bottle_line) as (_ & Hblank & _).
  apply Hblank. reflexivity.
Defined.

Lemma importData_clears_first_witness :
  importData parse_bottle ProductDoc append_docs true
    (Some (bottle_line ++ newline ++ (js "{tshirt") ++ newline ++ bottle_line))
    [mkProductDoc None None None None None None]
  = (1, []).
Proof.
  destruct (importData_clears_first parse_bottle ProductDoc append_docs
              [mkProductDoc None None None None None None] [] None
              bottle_line (js "{tshirt") bottle_line) as (_ & _ & Hbad & _).
  apply Hbad; reflexivity.
Defined.

Lemma to_product_needs_id_witness :
  d_id <$> to_product bottle_json = Some (Some (JStr "BW0jAAeDJmlZCF8i"))
  /\ to_product (JObj [("name", JStr "Stainless Steel Bottle")]) = None.
Proof.
  destruct (to_product_needs_id bottle_json) as [_ Hdoc].
  destruct (to_product_needs_id (JObj [("name", JStr "Stainless Steel Bottle")]))
    as [Hnone _].
  split.
  - destruct (to_product bottle_json) as [doc|] eqn:E; [|discriminate E].
    destruct (Hdoc doc eq_refl) as ((_id & Hid & Hoid) & _).
    cbn in Hid. injection Hid as <-. cbn in Hoid. injection Hoid as Hoid.
    cbn. now rewrite <- Hoid.
  - apply Hnone. right. left. reflexivity.
Defined.

Lemma create_validation_errors_witness :
  (length (js "  abc12  ") >= 8)%nat
  /\ create contains_at ascii_lowercase "6010008e6c3477697e8eaba4" padded_password_body crio_db
     = (Throw MongooseValidationError, crio_db).
Proof.
  split; [vm_compute; lia|].
  destruct (create_validation_errors contains_at ascii_lowercase "6010008e6c3477697e8eaba4"
              padded_password_body crio_db) as [_ Hbad].
  apply (Hbad (js "someone") (js "someone@gmail.com") (js "  abc12  "));
    [reflexivity..|].
  right. right. right. left. vm_compute. lia.
Defined.
